(** * Lead classification, geofencing, tagging, scoring and duplicate detection

    A shallow embedding of the lead engine of the contracting dashboard:
      - [Geofence]       the Virginia ZIP validation module,
      - [Categorization] src/lib/leads/categorization.ts,
      - [Tagging]        the tagging module,
      - [Scoring]        src/lib/leads/scoring.ts,
      - [DuplicateCheck] src/lib/leads/duplicate-check.ts,
      - [LeadFinder]     the lead finder route that calls them.

    JavaScript strings are modelled as [string], read as sequences of code
    units below 256; numbers as exact rationals extended with NaN and the two
    infinities (module [Num]). *)

From Stdlib Require Import String Ascii QArith Qround Lqa.
From Stdlib Require Import Sorted.
From stdpp Require Import gmap strings list fin_maps.

Local Open Scope string_scope.

(** ** String primitives of the host language *)
Module JS.

Definition code (c : ascii) : N := Ascii.N_of_ascii c.

(** [\d] of a regular expression without the unicode flag: [0-9]. *)
Definition is_digit (c : ascii) : bool :=
  ((48 <=? code c) && (code c <=? 57))%N.

(** White space as [\s] and [trim] see it, within the code units below 256:
    TAB, LF, VT, FF, CR, SPACE and NO-BREAK SPACE. *)
Definition is_space (c : ascii) : bool :=
  (((9 <=? code c) && (code c <=? 13)) || (code c =? 32) || (code c =? 160))%N.

Definition lower_char (c : ascii) : ascii :=
  let n := code c in
  if (((65 <=? n) && (n <=? 90))
      || ((192 <=? n) && (n <=? 222) && negb (n =? 215)))%N
  then Ascii.ascii_of_N (n + 32) else c.

(** Only the comparison with ["VA"] uses [toUpperCase]; the three code
    units below 256 whose upper case leaves that range never yield a
    ["V"] or an ["A"] and are left in place. *)
Definition upper_char (c : ascii) : ascii :=
  let n := code c in
  if (((97 <=? n) && (n <=? 122))
      || ((224 <=? n) && (n <=? 254) && negb (n =? 247)))%N
  then Ascii.ascii_of_N (n - 32) else c.

Fixpoint smap (f : ascii -> ascii) (s : string) : string :=
  match s with
  | EmptyString => EmptyString
  | String c s' => String (f c) (smap f s')
  end.

Fixpoint sfilter (p : ascii -> bool) (s : string) : string :=
  match s with
  | EmptyString => EmptyString
  | String c s' => if p c then String c (sfilter p s') else sfilter p s'
  end.

Fixpoint sforall (p : ascii -> bool) (s : string) : bool :=
  match s with
  | EmptyString => true
  | String c s' => p c && sforall p s'
  end.

Definition toLowerCase : string -> string := smap lower_char.
Definition toUpperCase : string -> string := smap upper_char.

(** [s.replace(/\D/g, '')] *)
Definition strip_non_digits : string -> string := sfilter is_digit.

(** [s.substring(0, n)] *)
Definition substring0 (n : nat) (s : string) : string := String.substring 0 n s.

Fixpoint trimStart (s : string) : string :=
  match s with
  | EmptyString => EmptyString
  | String c s' => if is_space c then trimStart s' else s
  end.

Fixpoint trimEnd (s : string) : string :=
  match s with
  | EmptyString => EmptyString
  | String c s' =>
      match trimEnd s' with
      | EmptyString => if is_space c then EmptyString else String c EmptyString
      | t => String c t
      end
  end.

Definition trim (s : string) : string := trimEnd (trimStart s).

(** [s.replace(/\s+/g, ' ')]: every maximal run of white space becomes one
    space; [in_run] tells that the preceding code unit was white space. *)
Fixpoint collapse_from (in_run : bool) (s : string) : string :=
  match s with
  | EmptyString => EmptyString
  | String c s' =>
      if is_space c then
        if in_run then collapse_from true s'
        else String " "%char (collapse_from true s')
      else String c (collapse_from false s')
  end.

Definition collapse_spaces : string -> string := collapse_from false.

(** [s.includes(t)] *)
Fixpoint includes (s t : string) : bool :=
  String.prefix t s
  || match s with
     | EmptyString => false
     | String _ s' => includes s' t
     end.

(** Truthiness of a string: the empty string is falsy. *)
Definition truthy (s : string) : bool := negb (String.eqb s "").

(** Truthiness of a value that may be [null] or [undefined]. *)
Definition truthy_opt (o : option string) : bool :=
  match o with Some s => truthy s | None => false end.

(** [arr.includes(x)] on an array of strings. *)
Definition array_includes (arr : list string) (x : string) : bool :=
  existsb (String.eqb x) arr.

End JS.

(** ** Virginia geofencing and validation *)
Module Geofence.
Import JS.

Definition VA_ZIP_PREFIXES : list string := ["20"; "22"; "23"].

(** [Object.entries(VA_COUNTIES)], in declaration order. *)
Definition VA_COUNTIES : list (string * list string) :=
  [ ("northernVA",
      ["Fairfax"; "Fairfax City"; "Arlington"; "Alexandria"; "Loudoun";
       "Prince William"; "Manassas"; "Manassas Park"; "Falls Church";
       "Fauquier"; "Stafford"; "Spotsylvania"; "Fredericksburg"]);
    ("richmondMetro",
      ["Richmond"; "Henrico"; "Chesterfield"; "Hanover"; "Goochland";
       "Powhatan"; "Colonial Heights"; "Petersburg"]);
    ("hamptonRoads",
      ["Virginia Beach"; "Norfolk"; "Newport News"; "Hampton"; "Chesapeake";
       "Portsmouth"; "Suffolk"; "Williamsburg"; "James City"; "York"]);
    ("centralVA",
      ["Albemarle"; "Charlottesville"; "Lynchburg"; "Bedford"; "Roanoke";
       "Salem"; "Montgomery"; "Blacksburg"]) ].

(** The entries of the object literal [ZIP_TO_COUNTY], in source order. *)
Definition ZIP_TO_COUNTY_entries : list (string * string) :=
[ ("22030", "Fairfax"); ("22031", "Fairfax"); ("22032", "Fairfax");
  ("22033", "Fairfax"); ("22034", "Fairfax"); ("22035", "Fairfax");
  ("22039", "Fairfax"); ("22041", "Fairfax"); ("22042", "Fairfax");
  ("22043", "Fairfax"); ("22044", "Fairfax"); ("22046", "Falls Church");
  ("22060", "Fairfax"); ("22079", "Fairfax"); ("22101", "Fairfax");
  ("22102", "Fairfax"); ("22124", "Fairfax"); ("22150", "Fairfax");
  ("22151", "Fairfax"); ("22152", "Fairfax"); ("22153", "Fairfax");
  ("22180", "Fairfax"); ("22181", "Fairfax"); ("22182", "Fairfax");
  ("22201", "Arlington"); ("22202", "Arlington"); ("22203", "Arlington");
  ("22204", "Arlington"); ("22205", "Arlington"); ("22206", "Arlington");
  ("22207", "Arlington"); ("22209", "Arlington"); ("22211", "Arlington");
  ("22213", "Arlington"); ("22301", "Alexandria"); ("22302", "Alexandria");
  ("22303", "Alexandria"); ("22304", "Alexandria"); ("22305", "Alexandria");
  ("22306", "Fairfax"); ("22307", "Fairfax"); ("22308", "Fairfax");
  ("22309", "Fairfax"); ("22310", "Fairfax"); ("22311", "Alexandria");
  ("22312", "Fairfax"); ("22314", "Alexandria"); ("22315", "Fairfax");
  ("20105", "Loudoun"); ("20117", "Loudoun"); ("20120", "Loudoun");
  ("20121", "Loudoun"); ("20129", "Loudoun"); ("20130", "Loudoun");
  ("20132", "Loudoun"); ("20135", "Loudoun"); ("20141", "Loudoun");
  ("20147", "Loudoun"); ("20148", "Loudoun"); ("20152", "Loudoun");
  ("20158", "Loudoun"); ("20164", "Loudoun"); ("20165", "Loudoun");
  ("20166", "Loudoun"); ("20175", "Loudoun"); ("20176", "Loudoun");
  ("22025", "Prince William"); ("22026", "Prince William"); ("22110", "Prince William");
  ("22111", "Prince William"); ("22112", "Prince William"); ("22172", "Prince William");
  ("22191", "Prince William"); ("22192", "Prince William"); ("22193", "Prince William");
  ("22194", "Prince William"); ("20109", "Prince William"); ("20110", "Manassas");
  ("20111", "Manassas"); ("20112", "Prince William"); ("20155", "Prince William");
  ("20169", "Prince William"); ("20181", "Prince William"); ("23173", "Richmond");
  ("23219", "Richmond"); ("23220", "Richmond"); ("23221", "Richmond");
  ("23222", "Richmond"); ("23223", "Richmond"); ("23224", "Richmond");
  ("23225", "Richmond"); ("23226", "Richmond"); ("23227", "Richmond");
  ("23228", "Henrico"); ("23229", "Henrico"); ("23230", "Richmond");
  ("23231", "Henrico"); ("23233", "Henrico"); ("23234", "Chesterfield");
  ("23235", "Chesterfield"); ("23236", "Chesterfield"); ("23237", "Chesterfield");
  ("23238", "Henrico"); ("23294", "Henrico") ].

(** The object used as a map from ZIP code to county.  Its keys are
    pairwise distinct ([ZIP_TO_COUNTY_keys_NoDup]), so the order in which
    the literal is read does not matter. *)
Definition ZIP_TO_COUNTY : gmap string string :=
  list_to_map ZIP_TO_COUNTY_entries.

Record ValidationResult := mkValidationResult {
  isValid : bool;
  isVirginia : bool;
  county : option string;
  region : option string;
  message : string
}.

(** [zipCode.replace(/\D/g, '').substring(0, 5)] *)
Definition cleanZip (zipCode : string) : string :=
  substring0 5 (strip_non_digits zipCode).

Definition isVirginiaZipCode (zipCode : string) : bool :=
  let cleanZip := cleanZip zipCode in
  if negb (String.length cleanZip =? 5)%nat then false
  else
    let prefix := substring0 2 cleanZip in
    array_includes VA_ZIP_PREFIXES prefix.

(** Every value of the table is a non-empty string, so [|| null] only
    turns a missing key into [null]. *)
Definition getCountyFromZip (zipCode : string) : option string :=
  let cleanZip := cleanZip zipCode in
  match ZIP_TO_COUNTY !! cleanZip with
  | Some c => if truthy c then Some c else None
  | None => None
  end.

Definition getRegionFromCounty (county : string) : option string :=
  fst <$> List.find
    (fun entry : string * list string =>
       existsb (fun c => String.eqb (toLowerCase c) (toLowerCase county))
               (snd entry))
    VA_COUNTIES.

Definition validateLeadLocation (zipCode : string) (state : option string)
  : ValidationResult :=
  let cleanZip := cleanZip zipCode in
  let checkZip :=
    if negb (String.length cleanZip =? 5)%nat then
      mkValidationResult false false None None "Invalid ZIP code format"
    else
      let isVA := isVirginiaZipCode cleanZip in
      if negb isVA then
        mkValidationResult false false None None "ZIP code is outside Virginia"
      else
        let county := getCountyFromZip cleanZip in
        let region :=
          if truthy_opt county then county ≫= getRegionFromCounty else None in
        mkValidationResult true true county region
          (match county with
           | Some c => if truthy c then "Valid Virginia location: " ++ c
                       else "Valid Virginia ZIP code"
           | None => "Valid Virginia ZIP code"
           end) in
  match state with
  | Some st =>
      if truthy st
         && negb (String.eqb (toUpperCase st) "VA")
         && negb (String.eqb (toLowerCase st) "virginia")
      then mkValidationResult false false None None
             ("Lead is outside Virginia service area (" ++ st ++ ")")
      else checkZip
  | None => checkZip
  end.

Definition shouldAutoArchive (zipCode : string) (state : option string) : bool :=
  let validation := validateLeadLocation zipCode state in
  negb (isVirginia validation).

(** [ALL_VA_COUNTIES]: the four regions as one flat array. *)
Definition ALL_VA_COUNTIES : list string :=
  mjoin (snd <$> VA_COUNTIES).

(** [VA_COUNTY_NAMES]: the counties of Virginia, independent cities left
    out. *)
Definition VA_COUNTY_NAMES : list string :=
  [ "Accomack"; "Albemarle"; "Alleghany"; "Amelia"; "Amherst"; "Appomattox";
    "Arlington"; "Augusta"; "Bath"; "Bedford"; "Bland"; "Botetourt";
    "Brunswick"; "Buchanan"; "Buckingham"; "Campbell"; "Caroline"; "Carroll";
    "Charles City"; "Charlotte"; "Chesterfield"; "Clarke"; "Craig"; "Culpeper";
    "Cumberland"; "Dickenson"; "Dinwiddie"; "Essex"; "Fairfax"; "Fauquier";
    "Floyd"; "Fluvanna"; "Franklin"; "Frederick"; "Giles"; "Gloucester";
    "Goochland"; "Grayson"; "Greene"; "Greensville"; "Halifax"; "Hanover";
    "Henrico"; "Henry"; "Highland"; "Isle of Wight"; "James City";
    "King and Queen"; "King George"; "King William"; "Lancaster"; "Lee";
    "Loudoun"; "Louisa"; "Lunenburg"; "Madison"; "Mathews"; "Mecklenburg";
    "Middlesex"; "Montgomery"; "Nelson"; "New Kent"; "Northampton";
    "Northumberland"; "Nottoway"; "Orange"; "Page"; "Patrick"; "Pittsylvania";
    "Powhatan"; "Prince Edward"; "Prince George"; "Prince William"; "Pulaski";
    "Rappahannock"; "Richmond"; "Roanoke"; "Rockbridge"; "Rockingham";
    "Russell"; "Scott"; "Shenandoah"; "Smyth"; "Southampton"; "Spotsylvania";
    "Stafford"; "Surry"; "Sussex"; "Tazewell"; "Warren"; "Washington";
    "Westmoreland"; "Wise"; "Wythe"; "York" ].

Definition VA_COUNTY_DISPLAY_NAMES : list string :=
  (fun county => county ++ " County") <$> VA_COUNTY_NAMES.

End Geofence.

(** ** Shared types (src/types/lead.ts) *)
Inductive ServiceTier := EPIC | MODERNIZE | EXTERIOR | SERVICE.

Definition tier_number (t : ServiceTier) : Z :=
  match t with EPIC => 1 | MODERNIZE => 2 | EXTERIOR => 3 | SERVICE => 4 end.

#[global] Instance ServiceTier_eq_dec : EqDecision ServiceTier.
Proof. solve_decision. Defined.

Inductive ProjectScope := small | medium | large | enterprise.

Inductive LeadTag := Whale | QuickTurn | Luxury | Commercial | MultiUnit.

#[global] Instance LeadTag_eq_dec : EqDecision LeadTag.
Proof. solve_decision. Defined.

Definition ServiceType := string.

(** ** Numbers of the host language

    A number is NaN, an infinity or an exact rational; the rounding error of
    binary floating point is not represented, and zero carries no sign. *)
Module Num.
Local Open Scope Q_scope.

Inductive number :=
| NaN
| Inf (positive : bool)
| Fin (q : Q).

Definition of_Z (z : Z) : number := Fin (inject_Z z).

(** Truthiness: [NaN] and zero are falsy. *)
Definition truthy (x : number) : bool :=
  match x with
  | NaN => false
  | Inf _ => true
  | Fin q => negb (Qeq_bool q 0)
  end.

Definition Qlt_bool (a b : Q) : bool := negb (Qle_bool b a).

(** [x < y] *)
Definition ltb (x y : number) : bool :=
  match x, y with
  | Fin a, Fin b => Qlt_bool a b
  | Fin _, Inf s => s
  | Inf s, Fin _ => negb s
  | Inf s, Inf s' => negb s && s'
  | _, _ => false
  end.

(** [x <= y] *)
Definition leb (x y : number) : bool :=
  match x, y with
  | Fin a, Fin b => Qle_bool a b
  | Fin _, Inf s => s
  | Inf s, Fin _ => negb s
  | Inf s, Inf s' => negb s || s'
  | _, _ => false
  end.

(** [x > y] and [x >= y] *)
Definition gtb (x y : number) : bool := ltb y x.
Definition geb (x y : number) : bool := leb y x.

Definition add (x y : number) : number :=
  match x, y with
  | Fin a, Fin b => Fin (a + b)
  | Inf s, Fin _ | Fin _, Inf s => Inf s
  | Inf s, Inf s' => if Bool.eqb s s' then Inf s else NaN
  | _, _ => NaN
  end.

Definition neg (x : number) : number :=
  match x with
  | NaN => NaN
  | Inf s => Inf (negb s)
  | Fin a => Fin (- a)
  end.

Definition sub (x y : number) : number := add x (neg y).

(** The sign of an infinite product or quotient with the finite [a]. *)
Definition scale_inf (s : bool) (a : Q) : number :=
  if Qeq_bool a 0 then NaN
  else Inf (if Qlt_bool 0 a then s else negb s).

Definition mul (x y : number) : number :=
  match x, y with
  | Fin a, Fin b => Fin (a * b)
  | Inf s, Fin a | Fin a, Inf s => scale_inf s a
  | Inf s, Inf s' => Inf (Bool.eqb s s')
  | _, _ => NaN
  end.

Definition div (x y : number) : number :=
  match x, y with
  | Fin a, Fin b =>
      if Qeq_bool b 0 then scale_inf true a else Fin (a / b)
  | Fin _, Inf _ => Fin 0
  | Inf s, Fin b => Inf (if Qlt_bool b 0 then negb s else s)
  | _, _ => NaN
  end.

(** [Math.round]: the nearest integer, ties towards plus infinity. *)
Definition round (x : number) : number :=
  match x with
  | Fin a => of_Z (Qfloor (a + (1 # 2)))
  | _ => x
  end.

(** [Math.max(x, y)] and [Math.min(x, y)] *)
Definition is_nan (x : number) : bool :=
  match x with NaN => true | _ => false end.

Definition max (x y : number) : number :=
  if is_nan x || is_nan y then NaN
  else if ltb x y then y else x.

Definition min (x y : number) : number :=
  if is_nan x || is_nan y then NaN
  else if ltb y x then y else x.

End Num.

Declare Scope num_scope.
Delimit Scope num_scope with num.
Bind Scope num_scope with Num.number.
Infix "+" := Num.add : num_scope.
Infix "-" := Num.sub : num_scope.
Infix "*" := Num.mul : num_scope.
Infix "/" := Num.div : num_scope.
Infix "<?" := Num.ltb : num_scope.
Infix "<=?" := Num.leb : num_scope.
Infix ">?" := Num.gtb : num_scope.
Infix ">=?" := Num.geb : num_scope.

(** ** Service categorisation (src/lib/leads/categorization.ts) *)
Module Categorization.
Import JS.

Record TierConfig := mkTierConfig {
  name : string;
  description : string;
  color : string;
  minValue : Z;
  maxValue : Z;
  baseScore : Z
}.

Definition TIER_CONFIG (t : ServiceTier) : TierConfig :=
  match t with
  | EPIC =>
      mkTierConfig "Epic" "Whale leads - High value, long-term projects"
        "#F4B400" 100000 500000 80
  | MODERNIZE =>
      mkTierConfig "Modernize" "Core revenue - Bread and butter projects"
        "#006070" 30000 150000 60
  | EXTERIOR =>
      mkTierConfig "Exterior" "Specialty - Entry point projects"
        "#7C3AED" 10000 50000 40
  | SERVICE =>
      mkTierConfig "Service" "High volume - Quick turnaround"
        "#10B981" 2000 30000 20
  end.

(** The object literal [SERVICE_TO_TIER]; [Object.keys] lists its keys in
    this order, none of them being an array index. *)
Definition SERVICE_TO_TIER : list (ServiceType * ServiceTier) :=
  [ ("New Construction", EPIC);
    ("Full Renovation", EPIC);
    ("Home Addition", EPIC);
    ("Kitchen Remodel", MODERNIZE);
    ("Bathroom Remodel", MODERNIZE);
    ("Basement Remodel", MODERNIZE);
    ("Condo Renovation", MODERNIZE);
    ("Roofing", EXTERIOR);
    ("Deck", EXTERIOR);
    ("Concrete", EXTERIOR);
    ("Siding", EXTERIOR);
    ("Fence", EXTERIOR);
    ("She-Shed", EXTERIOR);
    ("Painting", SERVICE);
    ("Drywall", SERVICE);
    ("Flooring", SERVICE);
    ("Windows/Doors", SERVICE) ].

(** [SERVICE_TO_TIER[serviceType]] on the table's own keys; the parameter
    type [ServiceType] keeps the names an object inherits out. *)
Definition lookup_tier (serviceType : ServiceType) : option ServiceTier :=
  snd <$> List.find (fun e => String.eqb (fst e) serviceType) SERVICE_TO_TIER.

Definition getServiceTier (serviceType : ServiceType) : ServiceTier :=
  default SERVICE (lookup_tier serviceType).

Definition keywordMap : list (string * ServiceType) :=
  [ ("kitchen", "Kitchen Remodel");
    ("bath", "Bathroom Remodel");
    ("bathroom", "Bathroom Remodel");
    ("basement", "Basement Remodel");
    ("condo", "Condo Renovation");
    ("roof", "Roofing");
    ("deck", "Deck");
    ("concrete", "Concrete");
    ("siding", "Siding");
    ("fence", "Fence");
    ("shed", "She-Shed");
    ("paint", "Painting");
    ("drywall", "Drywall");
    ("floor", "Flooring");
    ("window", "Windows/Doors");
    ("door", "Windows/Doors");
    ("addition", "Home Addition");
    ("renovation", "Full Renovation");
    ("remodel", "Full Renovation");
    ("new home", "New Construction");
    ("build", "New Construction") ].

(** The three passes of [findClosestService] over the normalised input. *)
Definition directMatch (normalized : string) : option ServiceType :=
  List.find (fun service => String.eqb (toLowerCase service) normalized)
            (fst <$> SERVICE_TO_TIER).

Definition partialMatch (normalized : string) : option ServiceType :=
  List.find (fun service =>
               includes (toLowerCase service) normalized
               || includes normalized (toLowerCase service))
            (fst <$> SERVICE_TO_TIER).

Definition keywordMatch (normalized : string) : option ServiceType :=
  snd <$> List.find (fun kw => includes normalized (fst kw)) keywordMap.

Definition findClosestService (input : string) : option ServiceType :=
  let normalized := trim (toLowerCase input) in
  match directMatch normalized with
  | Some service => Some service
  | None =>
    match partialMatch normalized with
    | Some service => Some service
    | None => keywordMatch normalized
    end
  end.

Definition getTierConfig (tier : ServiceTier) : TierConfig := TIER_CONFIG tier.

Definition getTierLabel (tier : ServiceTier) : string := name (TIER_CONFIG tier).

Definition getTierColor (tier : ServiceTier) : string := color (TIER_CONFIG tier).

(** [Object.entries(SERVICE_TO_TIER).filter(...).map(...)] *)
Definition getServicesForTier (tier : ServiceTier) : list ServiceType :=
  fst <$> List.filter (fun e => bool_decide (snd e = tier)) SERVICE_TO_TIER.

End Categorization.

(** ** Tagging *)
Module Tagging.
Import JS.

Definition LUXURY_AREAS : list string :=
  [ "McLean"; "Great Falls"; "Vienna"; "Oakton"; "Clifton"; "Potomac Falls";
    "Aldie"; "Leesburg"; "Purcellville";
    "Old Town Alexandria"; "Belle Haven"; "Rosemont";
    "Charlottesville"; "Virginia Beach"; "Williamsburg" ].

Definition LUXURY_COUNTIES : list string :=
  [ "Fairfax"; "Loudoun"; "Arlington"; "Alexandria"; "Falls Church" ].

Definition WHALE_SERVICES : list ServiceType :=
  [ "New Construction"; "Full Renovation"; "Home Addition" ].

Definition QUICK_TURN_SERVICES : list ServiceType :=
  [ "Painting"; "Drywall"; "Flooring"; "Windows/Doors" ].

Record TagInput := mkTagInput {
  serviceType : ServiceType;
  location : string;
  county : option string;
  leadType : option string;
  estimatedValue : option Num.number
}.

(** [tags.push(t)] *)
Definition push (tags : list LeadTag) (t : LeadTag) : list LeadTag := tags ++ [t].

(** [tags.includes(t)] *)
Definition has (tags : list LeadTag) (t : LeadTag) : bool := bool_decide (t ∈ tags).

Definition leadType_is (input : TagInput) (s : string) : bool :=
  match leadType input with Some l => String.eqb l s | None => false end.

Definition assignLeadTags (input : TagInput) : list LeadTag :=
  let tags := [] in
  (* Whale tag (high-value services) *)
  let tags :=
    if array_includes WHALE_SERVICES (serviceType input)
    then push tags Whale else tags in
  (* Whale tag based on value *)
  let tags :=
    match estimatedValue input with
    | Some ev =>
        if Num.truthy ev && (ev >=? Num.of_Z 100000)%num
        then (if negb (has tags Whale) then push tags Whale else tags)
        else tags
    | None => tags
    end in
  (* Quick-Turn tag *)
  let tags :=
    if array_includes QUICK_TURN_SERVICES (serviceType input)
    then push tags QuickTurn else tags in
  (* Luxury tag *)
  let isLuxuryArea :=
    existsb (fun area => includes (toLowerCase (location input)) (toLowerCase area))
            LUXURY_AREAS in
  let isLuxuryCounty :=
    match county input with
    | Some c =>
        truthy c
        && existsb (fun c' => String.eqb (toLowerCase c') (toLowerCase c))
                   LUXURY_COUNTIES
    | None => false
    end in
  let tags := if isLuxuryArea || isLuxuryCounty then push tags Luxury else tags in
  (* Commercial tag *)
  let tags :=
    if leadType_is input "Commercial" || leadType_is input "HOA Manager"
    then push tags Commercial else tags in
  (* Multi-Unit tag *)
  let tags :=
    if leadType_is input "Property Manager" || leadType_is input "Investor"
    then push tags MultiUnit else tags in
  tags.

Definition calculateTagBonus (tags : list LeadTag) : Z :=
 (    let bonus := 0 in
  let bonus := if has tags Whale then bonus + 15 else bonus in
  let bonus := if has tags Luxury then bonus + 10 else bonus in
  let bonus := if has tags MultiUnit then bonus + 8 else bonus in
  let bonus := if has tags Commercial then bonus + 5 else bonus in
  let bonus := if has tags QuickTurn then bonus + 3 else bonus in
  bonus)%Z.

Definition getTagPriority (tag : LeadTag) : Z :=
  match tag with
  | Whale => 1
  | Luxury => 2
  | Commercial => 3
  | MultiUnit => 4
  | QuickTurn => 5
  end.

(** [arr.sort(compare)]: the sort is stable, and [compare(a, b) <= 0] keeps
    [a] before [b]. *)
Fixpoint sort_insert {A : Type} (compare : A -> A -> Z) (x : A) (sorted : list A)
  : list A :=
  match sorted with
  | [] => [x]
  | y :: sorted' =>
      if (compare x y <=? 0)%Z then x :: y :: sorted'
      else y :: sort_insert compare x sorted'
  end.

Definition array_sort {A : Type} (compare : A -> A -> Z) (arr : list A) : list A :=
  foldr (sort_insert compare) [] arr.

(** The copy [[...tags]] is sorted, the argument is left as it is. *)
Definition sortTagsByPriority (tags : list LeadTag) : list LeadTag :=
  array_sort (fun a b => getTagPriority a - getTagPriority b)%Z tags.

End Tagging.

(** ** Lead scoring (src/lib/leads/scoring.ts) *)
Module Scoring.
Import JS Num.

Record Weights := mkWeights {
  w_tier : number; w_scope : number; w_value : number;
  w_location : number; w_engagement : number
}.

Definition SCORING_WEIGHTS : Weights :=
  mkWeights (Fin 0.40) (Fin 0.25) (Fin 0.20) (Fin 0.10) (Fin 0.05).

Definition SCOPE_SCORES (p : ProjectScope) : Z :=
  match p with
  | small => 20
  | medium => 50
  | large => 75
  | enterprise => 100
  end.

Definition NOVA_COUNTIES : list string :=
  [ "Fairfax"; "Arlington"; "Alexandria"; "Loudoun"; "Prince William";
    "Falls Church" ].

Record LeadScoreInput := mkLeadScoreInput {
  serviceTier : ServiceTier;
  projectScope : option ProjectScope;
  estimatedValue : option number;
  county : option string;
  hasEmail : option bool;
  hasPhone : option bool;
  tags : option (list LeadTag);
  confidenceScore : option number
}.

(** 1. Tier score *)
Definition tierScore (input : LeadScoreInput) : number :=
  of_Z (Categorization.baseScore (Categorization.TIER_CONFIG (serviceTier input))).

(** 2. Scope score *)
Definition scopeScore (input : LeadScoreInput) : number :=
  match projectScope input with
  | Some p => of_Z (SCOPE_SCORES p)
  | None => of_Z 50
  end.

(** 3. Value score, normalised against the tier's expected range *)
Definition valueScore (input : LeadScoreInput) : number :=
  let tierConfig := Categorization.TIER_CONFIG (serviceTier input) in
  match estimatedValue input with
  | Some ev =>
      if truthy ev && (ev >? of_Z 0)%num then
        let minValue := of_Z (Categorization.minValue tierConfig) in
        let maxValue := of_Z (Categorization.maxValue tierConfig) in
        if (ev >=? maxValue)%num then of_Z 100
        else if (ev <=? minValue)%num then of_Z 30
        else (of_Z 30 + (of_Z 70 * (ev - minValue) / (maxValue - minValue)))%num
      else of_Z 50
  | None => of_Z 50
  end.

(** 4. Location score *)
Definition locationScore (input : LeadScoreInput) : number :=
  match county input with
  | Some c =>
      if JS.truthy c then
        let isNoVA :=
          existsb (fun c' => String.eqb (toLowerCase c') (toLowerCase c))
                  NOVA_COUNTIES in
        if isNoVA then of_Z 100 else of_Z 70
      else of_Z 70
  | None => of_Z 70
  end.

(** 5. Engagement score *)
Definition engagementScore (input : LeadScoreInput) : number :=
  let hasEmail := default false (hasEmail input) in
  let hasPhone := default false (hasPhone input) in
  let engagementScore := of_Z 0 in
  let engagementScore :=
    if hasEmail then (engagementScore + of_Z 50)%num else engagementScore in
  let engagementScore :=
    if hasPhone then (engagementScore + of_Z 50)%num else engagementScore in
  engagementScore.

Definition weightedScore (input : LeadScoreInput) : number :=
  let tags := default [] (tags input) in
  let weightedScore :=
    ((tierScore input * w_tier SCORING_WEIGHTS)
     + (scopeScore input * w_scope SCORING_WEIGHTS)
     + (valueScore input * w_value SCORING_WEIGHTS)
     + (locationScore input * w_location SCORING_WEIGHTS)
     + (engagementScore input * w_engagement SCORING_WEIGHTS))%num in
  (* 6. Tag bonus *)
  let weightedScore :=
    if (0 <? length tags)%nat
    then (weightedScore + of_Z (Tagging.calculateTagBonus tags))%num
    else weightedScore in
  (* 7. AI confidence score *)
  let weightedScore :=
    match confidenceScore input with
    | Some cs =>
        if truthy cs && (cs >? of_Z 0)%num then
          let confidenceBonus := ((cs / of_Z 100) * of_Z 5)%num in
          (weightedScore + confidenceBonus)%num
        else weightedScore
    | None => weightedScore
    end in
  weightedScore.

Definition calculateLeadScore (input : LeadScoreInput) : number :=
  Num.min (of_Z 100) (Num.max (of_Z 0) (round (weightedScore input))).

Definition getScoreLabel (score : number) : string :=
  if (score >=? of_Z 80)%num then "Hot Lead"
  else if (score >=? of_Z 60)%num then "Warm Lead"
  else if (score >=? of_Z 40)%num then "Cool Lead"
  else "Cold Lead".

Definition getScoreColor (score : number) : string :=
  if (score >=? of_Z 80)%num then "text-red-500"
  else if (score >=? of_Z 60)%num then "text-orange-500"
  else if (score >=? of_Z 40)%num then "text-yellow-500"
  else "text-blue-500".

Definition getScoreBgColor (score : number) : string :=
  if (score >=? of_Z 80)%num then "bg-red-500/20"
  else if (score >=? of_Z 60)%num then "bg-orange-500/20"
  else if (score >=? of_Z 40)%num then "bg-yellow-500/20"
  else "bg-blue-500/20".

Definition estimateScopeFromValue (value : number) : ProjectScope :=
  if (value >=? of_Z 150000)%num then enterprise
  else if (value >=? of_Z 50000)%num then large
  else if (value >=? of_Z 10000)%num then medium
  else small.

Definition calculatePriorityRank (score : number) (tier : ServiceTier)
    (isStale : bool) : number :=
  let rank := score in
  let tierBonus := ((of_Z 5 - of_Z (tier_number tier)) * of_Z 10)%num in
  let rank := (rank + tierBonus)%num in
  let rank := if isStale then (rank + of_Z 50)%num else rank in
  rank.

End Scoring.

(** ** Duplicate lead detection (src/lib/leads/duplicate-check.ts) *)
Module DuplicateCheck.
Import JS.

Record DuplicateCheckInput := mkInput {
  name : string;
  email : option string;
  phone : option string;
  location : string;
  address : option string
}.

Inductive MatchType := mt_email | mt_phone | mt_address | mt_name_location.

Record DuplicateCheckResult := mkResult {
  isDuplicate : bool;
  matchedLeadId : option string;
  matchType : option MatchType
}.

(** A row of the [leads] table, with the columns the detector reads
    ([name] and [location] are NOT NULL in the schema). *)
Record LeadRow := mkRow {
  row_id : string;
  row_name : string;
  row_email : option string;
  row_phone : option string;
  row_location : string
}.

(** The store is a snapshot of the table: the rows in the order in which
    an unfiltered select returns them. *)
Definition Store := list LeadRow.

(** *** The query operators the detector relies on *)

Definition is_any_run (c : ascii) : bool :=
  Ascii.eqb c "%"%char || Ascii.eqb c "*"%char.

(** SQL [LIKE]: [%] (which the query layer also spells [*]) stands for any
    run of characters, [_] for one character, a backslash quotes the next
    pattern character. *)
Fixpoint like (pattern : string) : string -> bool :=
  match pattern with
  | EmptyString => fun text => String.eqb text ""
  | String c p' =>
      if is_any_run c then
        fix any_run (text : string) : bool :=
          like p' text
          || match text with
             | EmptyString => false
             | String _ t' => any_run t'
             end
      else if Ascii.eqb c "_"%char then
        fun text =>
          match text with
          | EmptyString => false
          | String _ t' => like p' t'
          end
      else
        match p' with
        | String c' p'' =>
            if Ascii.eqb c "\"%char then
              fun text =>
                match text with
                | EmptyString => false
                | String d t' => Ascii.eqb c' d && like p'' t'
                end
            else
              fun text =>
                match text with
                | EmptyString => false
                | String d t' => Ascii.eqb c d && like p' t'
                end
        | EmptyString =>
            fun text =>
              match text with
              | EmptyString => false
              | String d t' => Ascii.eqb c d && like p' t'
              end
        end
  end.

(** [.ilike(column, pattern)]: a NULL column matches nothing. *)
Definition ilike (column : option string) (pattern : string) : bool :=
  match column with
  | Some text => like (toLowerCase pattern) (toLowerCase text)
  | None => false
  end.

(** [.maybeSingle()]: the row when exactly one row is selected; no row
    gives [null], and several rows give an error whose [data] is [null]. *)
Definition maybeSingle {A} (rows : list A) : option A :=
  match rows with
  | [r] => Some r
  | _ => None
  end.

(** *** The detector *)

Definition normalizePhone (phone : option string) : option string :=
  match phone with
  | Some p => if negb (truthy p) then None else Some (strip_non_digits p)
  | None => None
  end.

Definition normalizeEmail (email : option string) : option string :=
  match email with
  | Some e => if negb (truthy e) then None else Some (trim (toLowerCase e))
  | None => None
  end.

Definition normalizeName (name : string) : string :=
  collapse_spaces (trim (toLowerCase name)).

(** [a === b] on values that are a string or [null]. *)
Definition opt_string_eqb (a b : option string) : bool :=
  match a, b with
  | Some x, Some y => String.eqb x y
  | None, None => true
  | _, _ => false
  end.

Definition notDuplicate : DuplicateCheckResult := mkResult false None None.

Definition findDuplicateLead (supabase : Store) (lead : DuplicateCheckInput)
  : DuplicateCheckResult :=
  let normalizedEmail := normalizeEmail (email lead) in
  let normalizedPhone := normalizePhone (phone lead) in
  let normalizedName := normalizeName (name lead) in
  let normalizedLocation := trim (toLowerCase (location lead)) in
  (* Strategy 1: email *)
  let emailMatch :=
    if truthy_opt normalizedEmail then
      maybeSingle
        (List.filter (fun row => ilike (row_email row) (default "" normalizedEmail))
                     supabase)
    else None in
  match emailMatch with
  | Some row => mkResult true (Some (row_id row)) (Some mt_email)
  | None =>
    (* Strategy 2: phone *)
    let phoneMatch :=
      if truthy_opt normalizedPhone
         && (10 <=? String.length (default "" normalizedPhone))%nat
      then
        let phoneMatches :=
          List.filter (fun row => bool_decide (row_phone row ≠ None)) supabase in
        List.find
          (fun row => opt_string_eqb (normalizePhone (row_phone row)) normalizedPhone)
          phoneMatches
      else None in
    match phoneMatch with
    | Some row => mkResult true (Some (row_id row)) (Some mt_phone)
    | None =>
      (* Strategy 3: name + location *)
      let nameLocationMatch :=
        maybeSingle
          (List.filter
             (fun row =>
                ilike (Some (row_name row)) ("%" ++ normalizedName ++ "%")
                && ilike (Some (row_location row)) ("%" ++ normalizedLocation ++ "%"))
             supabase) in
      match nameLocationMatch with
      | Some row => mkResult true (Some (row_id row)) (Some mt_name_location)
      | None => notDuplicate
      end
    end
  end.

Definition checkDuplicateLead (supabase : Store) (lead : DuplicateCheckInput) : bool :=
  isDuplicate (findDuplicateLead supabase lead).

(** The body of the loop of [batchCheckDuplicates]: one lead against the
    rows fetched before the loop.  The arrays [emails] and [phones] that the
    function collects beforehand (the latter keeping the numbers of at least
    ten digits) are never read, and are left out. *)
Definition checkAgainstExisting (existingLeads : list LeadRow)
    (lead : DuplicateCheckInput) : DuplicateCheckResult :=
  let normalizedEmail := normalizeEmail (email lead) in
  let normalizedPhone := normalizePhone (phone lead) in
  let normalizedName := normalizeName (name lead) in
  let normalizedLocation := trim (toLowerCase (location lead)) in
  let emailHit (existing : LeadRow) :=
    truthy_opt normalizedEmail
    && opt_string_eqb (normalizeEmail (row_email existing)) normalizedEmail in
  let phoneHit (existing : LeadRow) :=
    truthy_opt normalizedPhone
    && opt_string_eqb (normalizePhone (row_phone existing)) normalizedPhone in
  let match_ :=
    List.find
      (fun existing =>
         if emailHit existing then true
         else if phoneHit existing then true
         else if includes (normalizeName (row_name existing)) normalizedName
                 && includes (toLowerCase (row_location existing)) normalizedLocation
         then true
         else false)
      existingLeads in
  match match_ with
  | Some m =>
      let matchType :=
        if emailHit m then mt_email
        else if phoneHit m then mt_phone
        else mt_name_location in
      mkResult true (Some (row_id m)) (Some matchType)
  | None => notDuplicate
  end.

(** [arr.forEach((x, index) => ...)] threading the state the callback
    updates. *)
Fixpoint forEach_from {A St : Type} (f : St -> A -> nat -> St) (index : nat)
    (arr : list A) (s : St) : St :=
  match arr with
  | [] => s
  | x :: arr' => forEach_from f (S index) arr' (f s x index)
  end.

(** The select of all rows answers with the snapshot; the branch for a
    failed select, which reports no duplicate at all, has no counterpart. *)
Definition batchCheckDuplicates (supabase : Store) (leads : list DuplicateCheckInput)
  : gmap nat DuplicateCheckResult :=
  let results : gmap nat DuplicateCheckResult := ∅ in
  let existingLeads := supabase in
  forEach_from
    (fun results lead index => <[index := checkAgainstExisting existingLeads lead]> results)
    0 leads results.

End DuplicateCheck.

(** ** The lead finder route *)
Module LeadFinder.
Import JS.

Definition VA_CITIES : list string :=
  [ "Fairfax"; "Arlington"; "Alexandria"; "McLean"; "Great Falls"; "Vienna";
    "Reston"; "Herndon"; "Falls Church"; "Tysons"; "Ashburn"; "Leesburg";
    "Sterling"; "Centreville"; "Chantilly"; "Annandale"; "Springfield";
    "Burke"; "Lorton"; "Woodbridge"; "Manassas"; "Gainesville"; "Dumfries";
    "Richmond"; "Henrico"; "Chesterfield"; "Midlothian"; "Glen Allen";
    "Short Pump"; "Mechanicsville"; "Colonial Heights"; "Petersburg";
    "Virginia Beach"; "Norfolk"; "Newport News"; "Hampton"; "Chesapeake";
    "Portsmouth"; "Suffolk"; "Williamsburg"; "Charlottesville"; "Lynchburg";
    "Roanoke"; "Blacksburg"; "Salem"; "Fredericksburg"; "Stafford";
    "Winchester"; "Harrisonburg" ].

Record FoundLead := mkFoundLead {
  name : string;
  leadType : string;
  serviceNeed : string;
  email : option string;
  phone : option string;
  address : option string;
  city : string;
  zipCode : string;
  website : option string;
  company : option string;
  confidenceScore : Num.number
}.

(** [s.replace(/county/gi, '')] for a lower-case [needle]: the matches are
    taken from left to right and do not overlap; [skip] counts the code units
    of the current match still to be dropped. *)
Fixpoint remove_ci (needle : string) (skip : nat) (s : string) : string :=
  match s with
  | EmptyString => EmptyString
  | String c s' =>
      match skip with
      | S k => remove_ci needle k s'
      | O =>
          if String.prefix needle (toLowerCase s)
          then remove_ci needle (String.length needle - 1) s'
          else String c (remove_ci needle 0 s')
      end
  end.

Definition normalizeCountyInput (input : string) : string :=
  trim (remove_ci "county" 0 input).

Definition formatCountyDisplay (county : string) : string :=
  county ++ " County".

Inductive LocationType := lt_city | lt_county.

Record LocationValidation := mkLocationValidation {
  valid : bool;
  normalizedLocation : option string
}.

Definition validateVirginiaLocation (location : string) (locationType : LocationType)
  : LocationValidation :=
  let normalized := trim location in
  match locationType with
  | lt_county =>
      let cleaned := normalizeCountyInput normalized in
      let match_ :=
        List.find (fun c => String.eqb (toLowerCase c) (toLowerCase cleaned))
                  Geofence.VA_COUNTY_NAMES in
      match match_ with
      | Some m => mkLocationValidation true (Some (formatCountyDisplay m))
      | None =>
          let partialMatch :=
            List.find (fun c => includes (toLowerCase c) (toLowerCase cleaned)
                                || includes (toLowerCase cleaned) (toLowerCase c))
                      Geofence.VA_COUNTY_NAMES in
          match partialMatch with
          | Some m => mkLocationValidation true (Some (formatCountyDisplay m))
          | None => mkLocationValidation false None
          end
      end
  | lt_city =>
      let match_ :=
        List.find (fun c => String.eqb (toLowerCase c) (toLowerCase normalized))
                  VA_CITIES in
      match match_ with
      | Some m => mkLocationValidation true (Some m)
      | None =>
          let partialMatch :=
            List.find (fun c => includes (toLowerCase c) (toLowerCase normalized)
                                || includes (toLowerCase normalized) (toLowerCase c))
                      VA_CITIES in
          match partialMatch with
          | Some m => mkLocationValidation true (Some m)
          | None => mkLocationValidation false None
          end
      end
  end.

(** [String(type || '')]: the argument comes from parsed JSON and may be
    missing. *)
Definition validateLeadType (type : option string) : string :=
  let validTypes :=
    ["Investor"; "Property Manager"; "HOA Manager"; "Homeowner"; "Commercial"] in
  let normalized := trim (default "" type) in
  let match_ :=
    List.find (fun t => String.eqb (toLowerCase t) (toLowerCase normalized))
              validTypes in
  default "Homeowner" match_.

(** The predicate of [foundLeads.filter(...)] in the [POST] handler. *)
Definition isValidVirginiaLead (lead : FoundLead) : bool :=
  if negb (truthy (zipCode lead)) || negb (Geofence.isVirginiaZipCode (zipCode lead))
  then false
  else if negb (truthy (name lead)) || String.eqb (name lead) "Unknown"
  then false
  else true.

Record ProcessedLead := mkProcessedLead {
  found : FoundLead;
  county : option string;
  serviceType : ServiceType;
  serviceTier : ServiceTier;
  tags : list LeadTag;
  leadScore : Num.number;
  isDuplicate : bool;
  state : string
}.

(** The callback of [validLeads.map(...)] in the [POST] handler; [supabase]
    is [None] when the store is not configured. *)
Definition processLead (supabase : option DuplicateCheck.Store) (category : string)
    (lead : FoundLead) : ProcessedLead :=
  let isDuplicate :=
    match supabase with
    | Some store =>
        DuplicateCheck.checkDuplicateLead store
          (DuplicateCheck.mkInput (name lead) (email lead) (phone lead) (city lead) None)
    | None => false
    end in
  let matchedService :=
    default "Full Renovation" (Categorization.findClosestService category) in
  let serviceTier := default MODERNIZE (Categorization.lookup_tier matchedService) in
  let county := Geofence.getCountyFromZip (zipCode lead) in
  let tags :=
    Tagging.assignLeadTags
      (Tagging.mkTagInput matchedService (city lead) county (Some (leadType lead)) None) in
  let leadScore :=
    Scoring.calculateLeadScore
      (Scoring.mkLeadScoreInput serviceTier None None county
         (Some (truthy_opt (email lead))) (Some (truthy_opt (phone lead))) None None) in
  mkProcessedLead lead county matchedService serviceTier tags leadScore isDuplicate "VA".

End LeadFinder.

(** * Properties *)

(** ** Strings *)
Module JSFacts.
Import JS.

Lemma sfilter_all (p : ascii -> bool) (s : string) :
  sforall p s = true -> sfilter p s = s.
Proof.
  induction s as [|c s IH]; simpl; [done|].
  intros [Hc Hs]%andb_true_iff. rewrite Hc. f_equal. auto.
Qed.

Lemma sfilter_app (p : ascii -> bool) (s t : string) :
  sfilter p (s ++ t) = sfilter p s ++ sfilter p t.
Proof.
  induction s as [|c s IH]; simpl; [done|].
  destruct (p c); simpl; by rewrite IH.
Qed.

Lemma sforall_sfilter (p : ascii -> bool) (s : string) :
  sforall p (sfilter p s) = true.
Proof.
  induction s as [|c s IH]; simpl; [done|].
  destruct (p c) eqn:Hc; simpl; [by rewrite Hc|done].
Qed.

Lemma substring0_all (n : nat) (s : string) :
  String.length s <= n -> substring0 n s = s.
Proof.
  unfold substring0. revert n.
  induction s as [|c s IH]; intros [|n]; simpl; try done; try lia.
  intros Hn. f_equal. apply IH. lia.
Qed.

Lemma substring0_app (s t : string) :
  substring0 (String.length s) (s ++ t) = s.
Proof.
  unfold substring0.
  induction s as [|c s IH]; simpl; [by destruct t|by rewrite IH].
Qed.

Lemma substring0_length (n : nat) (s : string) :
  String.length (substring0 n s) <= n.
Proof.
  unfold substring0. revert n.
  induction s as [|c s IH]; intros [|n]; simpl; try lia.
  specialize (IH n). lia.
Qed.

Lemma sforall_substring0 (p : ascii -> bool) (n : nat) (s : string) :
  sforall p s = true -> sforall p (substring0 n s) = true.
Proof.
  unfold substring0. revert n.
  induction s as [|c s IH]; intros [|n]; simpl; try done.
  intros [Hc Hs]%andb_true_iff. rewrite Hc. simpl. auto.
Qed.

End JSFacts.

(** ** The geofence *)
Module GeofenceFacts.
Import JS JSFacts Geofence.

(** A well-formed ZIP code: five code units, all of them digits. *)
Definition five_digits (z : string) : Prop :=
  String.length z = 5 ∧ sforall is_digit z = true.

Lemma cleanZip_five_digits (z : string) : five_digits z -> cleanZip z = z.
Proof.
  intros [Hlen Hdig]. unfold cleanZip, strip_non_digits.
  rewrite sfilter_all by done. apply substring0_all. lia.
Qed.

Lemma cleanZip_app (z s : string) : five_digits z -> cleanZip (z ++ s) = z.
Proof.
  intros [Hlen Hdig]. unfold cleanZip, strip_non_digits.
  rewrite sfilter_app, sfilter_all by done.
  rewrite <- Hlen. apply substring0_app.
Qed.

Lemma cleanZip_idem (z : string) : cleanZip (cleanZip z) = cleanZip z.
Proof.
  unfold cleanZip at 1. unfold strip_non_digits.
  rewrite sfilter_all.
  - apply substring0_all. apply substring0_length.
  - apply sforall_substring0, sforall_sfilter.
Qed.

(** The three entry points read their argument through [cleanZip] only. *)
Lemma validateLeadLocation_clean (z1 z2 : string) (st : option string) :
  cleanZip z1 = cleanZip z2 ->
  validateLeadLocation z1 st = validateLeadLocation z2 st.
Proof. intros H. unfold validateLeadLocation. by rewrite H. Qed.

Lemma isVirginiaZipCode_clean (z1 z2 : string) :
  cleanZip z1 = cleanZip z2 -> isVirginiaZipCode z1 = isVirginiaZipCode z2.
Proof. intros H. unfold isVirginiaZipCode. by rewrite H. Qed.

Lemma getCountyFromZip_clean (z1 z2 : string) :
  cleanZip z1 = cleanZip z2 -> getCountyFromZip z1 = getCountyFromZip z2.
Proof. intros H. unfold getCountyFromZip. by rewrite H. Qed.

Lemma ZIP_TO_COUNTY_keys_NoDup : NoDup (ZIP_TO_COUNTY_entries.*1).
Proof. apply (bool_decide_unpack _). vm_compute. reflexivity. Qed.

Lemma ZIP_TO_COUNTY_lookup (z c : string) :
  ZIP_TO_COUNTY !! z = Some c -> (z, c) ∈ ZIP_TO_COUNTY_entries.
Proof. apply elem_of_list_to_map_2. Qed.

(** What [validateLeadLocation] answers, without a state, on a ZIP code of
    the table. *)
Definition table_entry_ok (e : string * string) : bool :=
  let r := validateLeadLocation e.1 None in
  isValid r && isVirginia r
  && bool_decide (county r = Some e.2).

Lemma table_entries_ok : forallb table_entry_ok ZIP_TO_COUNTY_entries = true.
Proof. vm_compute. reflexivity. Qed.

(** C3, as the code has it: the prefix 20 is one of the serviceable
    prefixes, so ZIP 20814 alone is accepted, without a county; it is the
    state argument that turns the lead away. *)
Theorem zip_20814_rejected_by_state_only :
  validateLeadLocation "20814" None
    = mkValidationResult true true None None "Valid Virginia ZIP code"
  ∧ shouldAutoArchive "20814" None = false
  ∧ isVirginia (validateLeadLocation "20814" (Some "MD")) = false
  ∧ shouldAutoArchive "20814" (Some "MD") = true.
Proof. repeat split; vm_compute; reflexivity. Qed.

(** C3 as stated does not hold: without a state, ZIP 20814 is serviceable
    and is not archived. *)
Lemma zip_20814_not_archived_without_state :
  ¬ (isVirginia (validateLeadLocation "20814" None) = false
     ∧ shouldAutoArchive "20814" None = true).
Proof. intros [H _]. vm_compute in H. discriminate. Qed.

(** C5: every ZIP code of the ZIP-to-county table is valid and serviceable
    and comes back with the table's county; a five-digit ZIP code whose
    two-digit prefix is not a serviceable prefix is not serviceable and has
    no county. *)
Theorem zip_round_trip (z : string) :
  (∀ c, ZIP_TO_COUNTY !! z = Some c ->
     county (validateLeadLocation z None) = Some c
     ∧ isVirginia (validateLeadLocation z None) = true
     ∧ isValid (validateLeadLocation z None) = true)
  ∧ (five_digits z ->
     array_includes VA_ZIP_PREFIXES (substring0 2 z) = false ->
     isVirginia (validateLeadLocation z None) = false
     ∧ county (validateLeadLocation z None) = None
     ∧ isValid (validateLeadLocation z None) = false).
Proof.
  split.
  - intros c Hc%ZIP_TO_COUNTY_lookup%list_elem_of_In.
    pose proof table_entries_ok as Hall.
    rewrite forallb_forall in Hall. specialize (Hall _ Hc).
    unfold table_entry_ok in Hall. cbn [fst snd] in Hall.
    apply andb_true_iff in Hall as [[Hv Hva]%andb_true_iff Hco].
    apply bool_decide_eq_true in Hco. auto.
  - intros Hz Hpre. pose proof Hz as [Hlen _].
    unfold validateLeadLocation, isVirginiaZipCode.
    rewrite cleanZip_idem, (cleanZip_five_digits z Hz), Hlen, Hpre.
    cbn. auto.
Qed.

Lemma zip_round_trip_witness :
  county (validateLeadLocation "22030" None) = Some "Fairfax"
  ∧ isVirginia (validateLeadLocation "10001" None) = false.
Proof.
  split.
  - apply (zip_round_trip "22030"). reflexivity.
  - apply (zip_round_trip "10001"); [split|]; reflexivity.
Defined.

(** C10: the entry points clean their argument first, so whatever follows
    a five-digit ZIP code is ignored: [cleanZip] gives the five digits
    back, and [validateLeadLocation], [isVirginiaZipCode] and
    [getCountyFromZip] answer as on the five digits alone. *)
Theorem zip_suffix_ignored (z s : string) (st : option string) :
  five_digits z ->
  cleanZip (z ++ s) = z
  ∧ validateLeadLocation (z ++ s) st = validateLeadLocation z st
  ∧ isVirginiaZipCode (z ++ s) = isVirginiaZipCode z
  ∧ getCountyFromZip (z ++ s) = getCountyFromZip z.
Proof.
  intros Hz.
  assert (cleanZip (z ++ s) = cleanZip z) as Heq
    by by rewrite cleanZip_app, cleanZip_five_digits.
  split; [by apply cleanZip_app|].
  split; [by apply validateLeadLocation_clean|].
  split; [by apply isVirginiaZipCode_clean|by apply getCountyFromZip_clean].
Qed.

Lemma zip_suffix_ignored_witness :
  five_digits "22030"
  ∧ validateLeadLocation "22030-1234" (Some "VA")
    = validateLeadLocation "22030" (Some "VA").
Proof.
  assert (five_digits "22030") as H by (split; reflexivity).
  split; [exact H|].
  exact (proj1 (proj2 (zip_suffix_ignored "22030" "-1234" (Some "VA") H))).
Defined.

End GeofenceFacts.

(** ** Numbers *)
Module NumFacts.
Import Num.
Local Open Scope Q_scope.

Lemma Qle_bool_false (a b : Q) : Qle_bool a b = false <-> b < a.
Proof.
  rewrite <- not_true_iff_false, Qle_bool_iff. split.
  - apply Qnot_le_lt.
  - apply Qlt_not_le.
Qed.

Lemma Qlt_bool_true (a b : Q) : Qlt_bool a b = true <-> a < b.
Proof. unfold Qlt_bool. rewrite negb_true_iff. apply Qle_bool_false. Qed.

Lemma Qlt_bool_false (a b : Q) : Qlt_bool a b = false <-> b <= a.
Proof. unfold Qlt_bool. rewrite negb_false_iff. apply Qle_bool_iff. Qed.

Lemma Qlt_bool_inject_Z (a b : Z) :
  Qlt_bool (inject_Z a) (inject_Z b) = (a <? b)%Z.
Proof.
  unfold Qlt_bool, Qle_bool, inject_Z. cbn [Qnum Qden].
  rewrite !Z.mul_1_r. symmetry. apply Z.ltb_antisym.
Qed.

Lemma max_of_Z (a b : Z) : max (of_Z a) (of_Z b) = of_Z (Z.max a b).
Proof.
  unfold max, of_Z. cbn [is_nan orb ltb]. rewrite Qlt_bool_inject_Z.
  destruct (Z.ltb_spec a b); f_equal; f_equal; lia.
Qed.

Lemma min_of_Z (a b : Z) : min (of_Z a) (of_Z b) = of_Z (Z.min a b).
Proof.
  unfold min, of_Z. cbn [is_nan orb ltb]. rewrite Qlt_bool_inject_Z.
  destruct (Z.ltb_spec b a); f_equal; f_equal; lia.
Qed.

Lemma leb_of_Z (a b : Z) : leb (of_Z a) (of_Z b) = (a <=? b)%Z.
Proof.
  unfold of_Z, leb, Qle_bool, inject_Z. cbn [Qnum Qden].
  by rewrite !Z.mul_1_r.
Qed.

(** [Math.min(100, Math.max(0, Math.round(x)))] on a finite number and on
    plus infinity. *)
Lemma clamp_Fin (q : Q) :
  min (of_Z 100) (max (of_Z 0) (round (Fin q)))
  = of_Z (Z.min 100 (Z.max 0 (Qfloor (q + (1 # 2))))).
Proof. cbn [round]. by rewrite max_of_Z, min_of_Z. Qed.

Lemma clamp_Inf : min (of_Z 100) (max (of_Z 0) (round (Inf true))) = of_Z 100.
Proof. reflexivity. Qed.

Lemma Qfloor_half_mono (a b : Q) :
  a <= b -> (Qfloor (a + (1 # 2)) <= Qfloor (b + (1 # 2)))%Z.
Proof. intros H. apply Qfloor_resp_le. lra. Qed.

Lemma Qfloor_half_lower (n : Z) (q : Q) :
  inject_Z n <= q -> (n <= Qfloor (q + (1 # 2)))%Z.
Proof.
  intros H. rewrite <- (Qfloor_Z n). apply Qfloor_resp_le. lra.
Qed.

End NumFacts.

(** ** The service classifier *)
Module CategorizationFacts.
Import JS Categorization.

(** C7: ["kitchen remodeling"] is none of the canonical names, the first
    canonical name in table order in a substring relation with it is
    ["Kitchen Remodel"] (which it contains), so the classifier answers
    ["Kitchen Remodel"]; the tier of that service is MODERNIZE (2). *)
Theorem kitchen_remodeling_is_kitchen_remodel :
  directMatch "kitchen remodeling" = None
  ∧ partialMatch "kitchen remodeling" = Some "Kitchen Remodel"
  ∧ findClosestService "kitchen remodeling" = Some "Kitchen Remodel"
  ∧ getServiceTier "Kitchen Remodel" = MODERNIZE
  ∧ tier_number MODERNIZE = 2%Z.
Proof. repeat split; vm_compute; reflexivity. Qed.

End CategorizationFacts.

(** ** The tagging engine *)
Module TaggingFacts.
Import JS Tagging.

Lemma calculateTagBonus_bounds (tags : list LeadTag) :
  (0 <= calculateTagBonus tags <= 41)%Z.
Proof.
  unfold calculateTagBonus.
  destruct (has tags Whale), (has tags Luxury), (has tags MultiUnit),
    (has tags Commercial), (has tags QuickTurn); lia.
Qed.

(** C8: no tag occurs twice in the list [assignLeadTags] returns, Whale
    included when both of its conditions hold, and the list has at most
    five tags. *)
Theorem assignLeadTags_NoDup (input : TagInput) :
  NoDup (assignLeadTags input)
  ∧ (∀ t, count_occ LeadTag_eq_dec (assignLeadTags input) t <= 1)
  ∧ 0 <= length (assignLeadTags input) <= 5.
Proof.
  assert (NoDup (assignLeadTags input)
          ∧ length (assignLeadTags input) <= 5) as [Hnd Hlen].
  { unfold assignLeadTags.
    destruct (array_includes WHALE_SERVICES (serviceType input));
      destruct (estimatedValue input) as [ev|];
      try destruct (Num.truthy ev && (ev >=? Num.of_Z 100000)%num);
      destruct (array_includes QUICK_TURN_SERVICES (serviceType input));
      destruct (_ || _ : bool);
      destruct (_ || _ : bool);
      destruct (_ || _ : bool);
      (split; [apply (bool_decide_unpack _); vm_compute; reflexivity
              | vm_compute; lia]). }
  split; [done|]. split; [|lia].
  intros t. apply NoDup_count_occ. by apply NoDup_ListNoDup.
Qed.

End TaggingFacts.

(** ** The scoring engine *)
Module ScoringFacts.
Import JS Num NumFacts Categorization Scoring.
Local Open Scope Q_scope.

(** The input with another estimated value, everything else unchanged. *)
Definition withValue (input : LeadScoreInput) (ev : option number)
  : LeadScoreInput :=
  mkLeadScoreInput (serviceTier input) (projectScope input) ev
    (county input) (hasEmail input) (hasPhone input) (tags input)
    (confidenceScore input).

(** The three stages of [weightedScore]: the weighted sum around a value
    score [v], the tag bonus, the confidence bonus. *)
Definition baseFrom (input : LeadScoreInput) (v : number) : number :=
  ((tierScore input * w_tier SCORING_WEIGHTS)
   + (scopeScore input * w_scope SCORING_WEIGHTS)
   + (v * w_value SCORING_WEIGHTS)
   + (locationScore input * w_location SCORING_WEIGHTS)
   + (engagementScore input * w_engagement SCORING_WEIGHTS))%num.

Definition withTags (input : LeadScoreInput) (w : number) : number :=
  if (0 <? length (default [] (tags input)))%nat
  then (w + of_Z (Tagging.calculateTagBonus (default [] (tags input))))%num
  else w.

Definition withConfidence (input : LeadScoreInput) (w : number) : number :=
  match confidenceScore input with
  | Some cs =>
      if truthy cs && (cs >? of_Z 0)%num
      then (w + ((cs / of_Z 100) * of_Z 5))%num
      else w
  | None => w
  end.

Lemma weightedScore_stages (input : LeadScoreInput) :
  weightedScore input
  = withConfidence input (withTags input (baseFrom input (valueScore input))).
Proof. reflexivity. Qed.

Ltac q_arith := unfold of_Z, inject_Z in *; cbn [Qnum Qden] in *; lra.

Lemma tierScore_spec (input : LeadScoreInput) :
  ∃ t, tierScore input = Fin t ∧ 20 <= t <= 80.
Proof.
  unfold tierScore. destruct (serviceTier input); cbn;
    eexists; (split; [reflexivity|q_arith]).
Qed.

Lemma scopeScore_spec (input : LeadScoreInput) :
  ∃ s, scopeScore input = Fin s ∧ 20 <= s <= 100.
Proof.
  unfold scopeScore. destruct (projectScope input) as [[]|]; cbn;
    eexists; (split; [reflexivity|q_arith]).
Qed.

Lemma locationScore_spec (input : LeadScoreInput) :
  ∃ l, locationScore input = Fin l ∧ 70 <= l <= 100.
Proof.
  unfold locationScore. destruct (county input) as [c|].
  - destruct (JS.truthy c); [destruct (existsb _ _)|];
      eexists; (split; [reflexivity|q_arith]).
  - eexists; (split; [reflexivity|q_arith]).
Qed.

Lemma engagementScore_spec (input : LeadScoreInput) :
  ∃ e, engagementScore input = Fin e ∧ 0 <= e <= 100.
Proof.
  unfold engagementScore.
  destruct (default false (hasEmail input)),
    (default false (hasPhone input)); cbn;
    eexists; (split; [reflexivity|q_arith]).
Qed.

(** The linear interpolation on a finite value: the range of a tier is
    never empty, so the division is an ordinary one. *)
Definition interpolate (t : ServiceTier) (q : Q) : Q :=
  inject_Z 30
  + inject_Z 70 * (q + - inject_Z (minValue (TIER_CONFIG t)))
    / (inject_Z (maxValue (TIER_CONFIG t))
       + - inject_Z (minValue (TIER_CONFIG t))).

Lemma interpolate_Fin (t : ServiceTier) (q : Q) :
  (of_Z 30
   + (of_Z 70 * (Fin q - of_Z (minValue (TIER_CONFIG t)))
      / (of_Z (maxValue (TIER_CONFIG t)) - of_Z (minValue (TIER_CONFIG t)))))%num
  = Fin (interpolate t q).
Proof. destruct t; reflexivity. Qed.

(** The slope of the interpolation: 70 points over the width of the
    tier's range. *)
Definition slope (t : ServiceTier) : Q :=
  match t with
  | EPIC => 70 # 400000
  | MODERNIZE => 70 # 120000
  | EXTERIOR => 70 # 40000
  | SERVICE => 70 # 28000
  end.

Lemma interpolate_linear (t : ServiceTier) (q : Q) :
  interpolate t q == 30 + slope t * (q - inject_Z (minValue (TIER_CONFIG t))).
Proof.
  unfold interpolate, slope.
  destruct t; cbn [TIER_CONFIG minValue maxValue]; unfold inject_Z; field.
Qed.

Lemma interpolate_mono (t : ServiceTier) (a b : Q) :
  a <= b -> interpolate t a <= interpolate t b.
Proof.
  intros H. rewrite !interpolate_linear.
  destruct t; cbn [slope TIER_CONFIG minValue maxValue]; q_arith.
Qed.

Lemma interpolate_bounds (t : ServiceTier) (q : Q) :
  inject_Z (minValue (TIER_CONFIG t)) <= q <= inject_Z (maxValue (TIER_CONFIG t)) ->
  30 <= interpolate t q <= 100.
Proof.
  rewrite interpolate_linear.
  destruct t; cbn [slope TIER_CONFIG minValue maxValue]; intros; q_arith.
Qed.

Lemma interpolate_min (t : ServiceTier) :
  interpolate t (inject_Z (minValue (TIER_CONFIG t))) == 30.
Proof. rewrite interpolate_linear. destruct t; cbn; q_arith. Qed.

(** The value score is a finite number between 30 and 100, whatever the
    estimated value is. *)
Lemma valueScore_spec (input : LeadScoreInput) :
  ∃ v, valueScore input = Fin v ∧ 30 <= v <= 100.
Proof.
  unfold valueScore.
  destruct (estimatedValue input) as [ev|];
    [|eexists; (split; [reflexivity|q_arith])].
  destruct (truthy ev && (ev >? of_Z 0)%num) eqn:Hguard;
    [|eexists; (split; [reflexivity|q_arith])].
  destruct (ev >=? _)%num eqn:Hmax;
    [eexists; (split; [reflexivity|q_arith])|].
  destruct (ev <=? _)%num eqn:Hmin;
    [eexists; (split; [reflexivity|q_arith])|].
  destruct ev as [|s|q].
  - discriminate.
  - destruct s; discriminate.
  - unfold geb, leb, of_Z in Hmax, Hmin.
    apply Qle_bool_false in Hmax, Hmin.
    rewrite interpolate_Fin. eexists. split; [reflexivity|].
    apply interpolate_bounds. lra.
Qed.

Lemma baseFrom_spec (input : LeadScoreInput) :
  ∃ k, 20 <= k ∧
    ∀ v, ∃ q, baseFrom input (Fin v) = Fin q ∧ q == v * (1 # 5) + k.
Proof.
  destruct (tierScore_spec input) as (t & Ht & ?).
  destruct (scopeScore_spec input) as (s & Hs & ?).
  destruct (locationScore_spec input) as (l & Hl & ?).
  destruct (engagementScore_spec input) as (e & He & ?).
  exists (t * (2 # 5) + s * (1 # 4) + l * (1 # 10) + e * (1 # 20)).
  split; [lra|]. intros v.
  unfold baseFrom. rewrite Ht, Hs, Hl, He. cbn.
  eexists. split; [reflexivity|]. lra.
Qed.

Lemma withTags_spec (input : LeadScoreInput) :
  ∃ b, 0 <= b ∧ ∀ q, ∃ q', withTags input (Fin q) = Fin q' ∧ q' == q + b.
Proof.
  unfold withTags.
  destruct (0 <? length _)%nat.
  - pose proof (TaggingFacts.calculateTagBonus_bounds (default [] (tags input)))
      as [Hb _].
    exists (inject_Z (Tagging.calculateTagBonus (default [] (tags input)))).
    split.
    + change 0 with (inject_Z 0). by rewrite <- Zle_Qle.
    + intros q. eexists. split; [reflexivity|]. lra.
  - exists 0. split; [lra|]. intros q. exists q. split; [done|lra].
Qed.

Lemma withConfidence_spec (input : LeadScoreInput) :
  (∀ q, withConfidence input (Fin q) = Inf true)
  ∨ (∃ c, 0 <= c ∧
       ∀ q, ∃ q', withConfidence input (Fin q) = Fin q' ∧ q' == q + c).
Proof.
  assert (∀ A : Prop, A ∨ (∃ c, 0 <= c ∧ ∀ q, ∃ q', Fin q = Fin q' ∧ q' == q + c))
    as Hsame.
  { intros A. right. exists 0. split; [lra|].
    intros q. exists q. split; [done|lra]. }
  unfold withConfidence.
  destruct (confidenceScore input) as [cs|]; [|apply Hsame].
  destruct (truthy cs && (cs >? of_Z 0)%num) eqn:Hguard; [|apply Hsame].
  destruct cs as [|s|c].
  - discriminate.
  - destruct s; [|discriminate]. left. reflexivity.
  - right. apply andb_true_iff in Hguard as [_ Hpos].
    unfold gtb, ltb, of_Z in Hpos. apply Qlt_bool_true in Hpos.
    exists (c * (1 # 20)). split.
    + q_arith.
    + intros q. eexists. split; [reflexivity|]. unfold inject_Z. field.
Qed.

(** The weighted score around a finite value score [v]: plus infinity when
    the confidence score is, else [v / 5] plus a constant of at least 20
    that does not depend on [v]. *)
Lemma weightedFrom_spec (input : LeadScoreInput) :
  (∀ v, withConfidence input (withTags input (baseFrom input (Fin v)))
        = Inf true)
  ∨ (∃ k, 20 <= k ∧
       ∀ v, ∃ q,
         withConfidence input (withTags input (baseFrom input (Fin v))) = Fin q
         ∧ q == v * (1 # 5) + k).
Proof.
  destruct (baseFrom_spec input) as (k & Hk & Hbase).
  destruct (withTags_spec input) as (b & Hb & Htags).
  destruct (withConfidence_spec input) as [Hinf|(c & Hc & Hconf)].
  - left. intros v.
    destruct (Hbase v) as (q & -> & _). destruct (Htags q) as (q' & -> & _).
    apply Hinf.
  - right. exists (k + b + c). split; [lra|]. intros v.
    destruct (Hbase v) as (q & -> & Hq). destruct (Htags q) as (q' & -> & Hq').
    destruct (Hconf q') as (q'' & -> & Hq'').
    exists q''. split; [done|]. lra.
Qed.

(** The value score on a finite estimated value inside the tier's range. *)
Definition valueQ (t : ServiceTier) (v : Q) : Q :=
  if Qle_bool (inject_Z (maxValue (TIER_CONFIG t))) v then inject_Z 100
  else if Qle_bool v (inject_Z (minValue (TIER_CONFIG t))) then inject_Z 30
  else interpolate t v.

Lemma valueScore_in_range (input : LeadScoreInput) (v : Q) :
  inject_Z (minValue (TIER_CONFIG (serviceTier input))) <= v ->
  valueScore (withValue input (Some (Fin v)))
  = Fin (valueQ (serviceTier input) v).
Proof.
  intros Hmin. unfold valueScore, valueQ.
  cbn [withValue estimatedValue serviceTier].
  assert (0 < v) as Hpos by (destruct (serviceTier input); cbn in Hmin; q_arith).
  assert (truthy (Fin v) && (Fin v >? of_Z 0)%num = true) as ->.
  { apply andb_true_iff. split.
    - cbn. apply negb_true_iff, not_true_iff_false.
      rewrite Qeq_bool_iff. lra.
    - unfold gtb, ltb, of_Z. apply Qlt_bool_true. q_arith. }
  unfold geb, leb, of_Z.
  destruct (Qle_bool _ v); [done|].
  destruct (Qle_bool v _); [done|].
  apply interpolate_Fin.
Qed.

Ltac case_Qle_bool :=
  match goal with
  | |- context [Qle_bool ?a ?b] =>
      let E := fresh "E" in
      destruct (Qle_bool a b) eqn:E;
      [apply Qle_bool_iff in E|apply Qle_bool_false in E]
  end.

Lemma valueQ_mono (t : ServiceTier) (v1 v2 : Q) :
  inject_Z (minValue (TIER_CONFIG t)) <= v1 -> v1 <= v2 ->
  v2 <= inject_Z (maxValue (TIER_CONFIG t)) ->
  valueQ t v1 <= valueQ t v2.
Proof.
  intros Hmin H12 Hmax. unfold valueQ.
  assert (30 <= interpolate t v1 <= 100) by (apply interpolate_bounds; lra).
  assert (30 <= interpolate t v2 <= 100) by (apply interpolate_bounds; lra).
  pose proof (interpolate_mono t v1 v2 H12).
  change (inject_Z 100) with 100. change (inject_Z 30) with 30.
  repeat case_Qle_bool; lra.
Qed.

Lemma weightedScore_withValue (input : LeadScoreInput) (ev : option number) :
  weightedScore (withValue input ev)
  = withConfidence input
      (withTags input (baseFrom input (valueScore (withValue input ev)))).
Proof. reflexivity. Qed.

(** C2: whatever the tier, the scope, the estimated value, the county, the
    tags, the confidence score (absent, or any number, NaN and the
    infinities included) and the contact flags are, the score is an integer
    between 0 and 100. *)
Theorem calculateLeadScore_bounds (input : LeadScoreInput) :
  ∃ n : Z, calculateLeadScore input = of_Z n ∧ (0 <= n <= 100)%Z.
Proof.
  unfold calculateLeadScore. rewrite weightedScore_stages.
  destruct (valueScore_spec input) as (v & -> & _).
  destruct (weightedFrom_spec input) as [Hinf|(k & _ & Hfin)].
  - rewrite Hinf, clamp_Inf. exists 100%Z. split; [done|lia].
  - destruct (Hfin v) as (q & -> & _). rewrite clamp_Fin.
    eexists. split; [reflexivity|lia].
Qed.

(** C9: the score is never below 26, and [Math.max(0, ...)] leaves the
    rounded weighted score as it is. *)
Theorem calculateLeadScore_floor (input : LeadScoreInput) :
  (∃ n : Z, calculateLeadScore input = of_Z n ∧ (26 <= n <= 100)%Z)
  ∧ Num.max (of_Z 0) (round (weightedScore input)) = round (weightedScore input).
Proof.
  unfold calculateLeadScore. rewrite weightedScore_stages.
  destruct (valueScore_spec input) as (v & -> & Hv & _).
  destruct (weightedFrom_spec input) as [Hinf|(k & Hk & Hfin)].
  - rewrite Hinf. split; [|done].
    rewrite clamp_Inf. exists 100%Z. split; [done|lia].
  - destruct (Hfin v) as (q & -> & Hq).
    assert (26 <= Qfloor (q + (1 # 2)))%Z as Hfloor
      by (apply Qfloor_half_lower; q_arith).
    split.
    + rewrite clamp_Fin. eexists. split; [reflexivity|lia].
    + cbn [round]. rewrite max_of_Z. f_equal. lia.
Qed.

(** The floor of 26 is reached: the lowest tier, the smallest scope, a
    value below the tier's range, no county and no contact data. *)
Example calculateLeadScore_floor_reached :
  calculateLeadScore
    (mkLeadScoreInput SERVICE (Some small) (Some (of_Z 1500)) None
       (Some false) (Some false) None None)
  = of_Z 26.
Proof. vm_compute. reflexivity. Qed.

(** C6: inside the range of the input's tier a larger estimated value
    gives a value score, a weighted value contribution and a final score
    that are at least as large, everything else being the same. *)
Theorem score_monotone_in_value (input : LeadScoreInput) (v1 v2 : Q) :
  inject_Z (minValue (TIER_CONFIG (serviceTier input))) <= v1 ->
  v1 <= v2 ->
  v2 <= inject_Z (maxValue (TIER_CONFIG (serviceTier input))) ->
  let low := withValue input (Some (Fin v1)) in
  let high := withValue input (Some (Fin v2)) in
  (valueScore low <=? valueScore high)%num = true
  ∧ (valueScore low * w_value SCORING_WEIGHTS
     <=? valueScore high * w_value SCORING_WEIGHTS)%num = true
  ∧ (calculateLeadScore low <=? calculateLeadScore high)%num = true.
Proof.
  intros Hmin H12 Hmax low high.
  pose proof (valueQ_mono _ _ _ Hmin H12 Hmax) as Hmono.
  unfold calculateLeadScore. subst low high.
  rewrite !weightedScore_withValue, !valueScore_in_range by lra.
  set (a := valueQ _ v1) in *. set (b := valueQ _ v2) in *.
  split; [|split].
  - apply Qle_bool_iff, Hmono.
  - cbn. apply Qle_bool_iff. lra.
  - destruct (weightedFrom_spec input) as [Hinf|(k & _ & Hfin)].
    + by rewrite !Hinf.
    + destruct (Hfin a) as (qa & -> & Ha). destruct (Hfin b) as (qb & -> & Hb).
      rewrite !clamp_Fin, leb_of_Z. apply Z.leb_le.
      assert (Qfloor (qa + (1 # 2)) <= Qfloor (qb + (1 # 2)))%Z
        by (apply Qfloor_half_mono; lra).
      lia.
Qed.

Lemma score_monotone_in_value_witness :
  let input :=
    mkLeadScoreInput MODERNIZE (Some large) None (Some "Arlington")
      (Some true) None (Some [Luxury]) (Some (of_Z 80)) in
  inject_Z (minValue (TIER_CONFIG MODERNIZE)) <= 45000
  ∧ 45000 <= 85000
  ∧ 85000 <= inject_Z (maxValue (TIER_CONFIG MODERNIZE))
  ∧ (calculateLeadScore (withValue input (Some (Fin 45000)))
     <=? calculateLeadScore (withValue input (Some (Fin 85000))))%num = true.
Proof.
  intros input.
  assert (inject_Z (minValue (TIER_CONFIG MODERNIZE)) <= 45000) as H1
    by (unfold Qle; simpl; lia).
  assert (45000 <= 85000) as H2 by (unfold Qle; simpl; lia).
  assert (85000 <= inject_Z (maxValue (TIER_CONFIG MODERNIZE))) as H3
    by (unfold Qle; simpl; lia).
  split; [exact H1|]. split; [exact H2|]. split; [exact H3|].
  exact (proj2 (proj2 (score_monotone_in_value input 45000 85000 H1 H2 H3))).
Defined.

(** C4: a "New Construction" lead worth 450000 with an e-mail address and
    a telephone number, wherever it is located: the service maps to tier
    EPIC (1), the tags contain Whale, and the score of that tier with those
    tags is at least 90. *)
Theorem new_construction_scenario (location : string) :
  let tier := getServiceTier "New Construction" in
  let tags :=
    Tagging.assignLeadTags
      (Tagging.mkTagInput "New Construction" location None None
         (Some (of_Z 450000))) in
  tier = EPIC ∧ tier_number tier = 1%Z
  ∧ Whale ∈ tags
  ∧ ∃ n : Z,
      calculateLeadScore
        (mkLeadScoreInput tier None (Some (of_Z 450000)) None
           (Some true) (Some true) (Some tags) None)
      = of_Z n
      ∧ (90 <= n)%Z.
Proof.
  intros tier tags.
  assert (tags = [Whale] ∨ tags = [Whale; Luxury]) as Htags.
  { subst tags. unfold Tagging.assignLeadTags.
    destruct (existsb _ Tagging.LUXURY_AREAS); [right|left]; reflexivity. }
  split; [reflexivity|]. split; [reflexivity|].
  destruct Htags as [-> | ->].
  - split; [set_solver|]. exists 90%Z. split; [vm_compute; reflexivity|lia].
  - split; [set_solver|]. exists 100%Z. split; [vm_compute; reflexivity|lia].
Qed.

End ScoringFacts.

(** ** The duplicate detector *)
Module DuplicateCheckFacts.
Import JS DuplicateCheck.

Lemma forEach_from_insert_lookup {A B : Type} (g : A -> B) (arr : list A)
    (start i : nat) (m : gmap nat B) :
  forEach_from (fun results x index => <[index := g x]> results) start arr m !! i
  = if decide (start <= i) then
      match arr !! (i - start) with
      | Some x => Some (g x)
      | None => m !! i
      end
    else m !! i.
Proof.
  revert start m. induction arr as [|x arr IH]; intros start m; cbn [forEach_from].
  - by destruct (decide _).
  - rewrite IH. destruct (decide (S start <= i)) as [Hlt|Hge].
    + rewrite decide_True by lia.
      replace (i - start) with (S (i - S start)) by lia. cbn.
      destruct (arr !! (i - S start)); [done|].
      apply lookup_insert_ne. lia.
    + destruct (decide (start <= i)) as [Hle|Hnle].
      * assert (i = start) as -> by lia.
        rewrite Nat.sub_diag. cbn. apply lookup_insert_eq.
      * apply lookup_insert_ne. lia.
Qed.

(** The batch gives index [i] the outcome of the loop body on candidate
    [i] and the fetched rows: no other candidate of the batch enters it. *)
Lemma batchCheckDuplicates_lookup (supabase : Store)
    (leads : list DuplicateCheckInput) (i : nat) :
  batchCheckDuplicates supabase leads !! i
  = checkAgainstExisting supabase <$> leads !! i.
Proof.
  unfold batchCheckDuplicates. rewrite forEach_from_insert_lookup.
  rewrite decide_True by lia. rewrite Nat.sub_0_r.
  by destruct (leads !! i).
Qed.

(** C1 fails on the code: a candidate whose telephone number has fewer
    than ten digits is not a duplicate for [findDuplicateLead], which asks
    for ten digits before it compares numbers, and is a telephone duplicate
    for [batchCheckDuplicates], which compares any non-empty number. *)
Theorem batch_differs_on_short_phone :
  let supabase :=
    [mkRow "lead-1" "Bob Jones" None (Some "555-0101") "Vienna"] in
  let lead := mkInput "Ann Lee" None (Some "5550101") "Reston" None in
  findDuplicateLead supabase lead = notDuplicate
  ∧ batchCheckDuplicates supabase [lead] !! 0
    = Some (mkResult true (Some "lead-1") (Some mt_phone)).
Proof. split; vm_compute; reflexivity. Qed.

(** The two also order their strategies differently: the single check
    tries the e-mail address on every row before anything else, the batch
    takes the first row that matches by any strategy. *)
Example batch_differs_on_strategy_order :
  let supabase :=
    [mkRow "lead-1" "John Smith" None None "Vienna";
     mkRow "lead-2" "J. Smith" (Some "john@x.com") None "Reston"] in
  let lead := mkInput "John Smith" (Some "JOHN@X.COM") None "Vienna" None in
  findDuplicateLead supabase lead
    = mkResult true (Some "lead-2") (Some mt_email)
  ∧ batchCheckDuplicates supabase [lead] !! 0
    = Some (mkResult true (Some "lead-1") (Some mt_name_location)).
Proof. split; vm_compute; reflexivity. Qed.

End DuplicateCheckFacts.

(** ** More on the geofence *)
Module GeofenceProps.
Import JS JSFacts Geofence GeofenceFacts.

Lemma getCountyFromZip_Some (z c : string) :
  getCountyFromZip z = Some c -> (cleanZip z, c) ∈ ZIP_TO_COUNTY_entries.
Proof.
  unfold getCountyFromZip.
  destruct (ZIP_TO_COUNTY !! cleanZip z) as [c'|] eqn:E; [|done].
  destruct (truthy c'); [|done]. intros [= ->].
  by apply ZIP_TO_COUNTY_lookup.
Qed.

(** What holds of every entry of the ZIP table: the key has five code
    units and a serviceable prefix, the county is a non-empty name that one of
    the four regions lists. *)
Definition entry_wf (e : string * string) : bool :=
  (String.length e.1 =? 5)%nat
  && isVirginiaZipCode e.1
  && truthy e.2
  && bool_decide (is_Some (getRegionFromCounty e.2)).

Lemma entries_wf : forallb entry_wf ZIP_TO_COUNTY_entries = true.
Proof. vm_compute. reflexivity. Qed.

Lemma entry_wf_of (z c : string) :
  (z, c) ∈ ZIP_TO_COUNTY_entries ->
  String.length z = 5 ∧ isVirginiaZipCode z = true ∧ truthy c = true
  ∧ is_Some (getRegionFromCounty c).
Proof.
  intros Hin%list_elem_of_In.
  pose proof entries_wf as Hall. rewrite forallb_forall in Hall.
  specialize (Hall _ Hin). unfold entry_wf in Hall. cbn [fst snd] in Hall.
  apply andb_true_iff in Hall as [[[Hlen Hva]%andb_true_iff Ht]%andb_true_iff Hreg].
  apply Nat.eqb_eq in Hlen. apply bool_decide_eq_true in Hreg. auto.
Qed.

(** X1: without a state argument, [validateLeadLocation] calls a ZIP code
    Virginian exactly when [isVirginiaZipCode] does, for every string; its
    [isValid] flag says the same, and [shouldAutoArchive] is the negation. *)
Theorem validate_agrees_with_prefix_check (zipCode : string) :
  isVirginia (validateLeadLocation zipCode None) = isVirginiaZipCode zipCode
  ∧ isValid (validateLeadLocation zipCode None) = isVirginiaZipCode zipCode
  ∧ shouldAutoArchive zipCode None = negb (isVirginiaZipCode zipCode).
Proof.
  unfold shouldAutoArchive, validateLeadLocation, isVirginiaZipCode.
  rewrite cleanZip_idem.
  destruct (negb (String.length (cleanZip zipCode) =? 5)%nat); [done|].
  by destruct (array_includes _ _).
Qed.

(** X2: whatever the ZIP code and the state are, the result is valid
    exactly when it is Virginian; a result that is not has neither county nor
    region; a region comes only with a county, and every county the ZIP table
    can give has a region. *)
Theorem validation_result_invariants (zipCode : string) (state : option string) :
  let r := validateLeadLocation zipCode state in
  isValid r = isVirginia r
  ∧ (isVirginia r = false -> county r = None ∧ region r = None)
  ∧ (county r = None -> region r = None)
  ∧ (∀ c, county r = Some c -> isVirginia r = true ∧ is_Some (region r)).
Proof.
  cbn zeta. unfold validateLeadLocation.
  set (foreign := mkValidationResult false false None None).
  assert (∀ msg, let r := foreign msg in
            isValid r = isVirginia r
            ∧ (isVirginia r = false -> county r = None ∧ region r = None)
            ∧ (county r = None -> region r = None)
            ∧ (∀ c, county r = Some c -> isVirginia r = true ∧ is_Some (region r)))
    as Hforeign by (intros msg; cbn; repeat split; done).
  match goal with
  | |- context [match state with Some _ => _ | None => ?k end] => set (checkZip := k)
  end.
  assert (isValid checkZip = isVirginia checkZip
          ∧ (isVirginia checkZip = false -> county checkZip = None ∧ region checkZip = None)
          ∧ (county checkZip = None -> region checkZip = None)
          ∧ (∀ c, county checkZip = Some c ->
               isVirginia checkZip = true ∧ is_Some (region checkZip)))
    as HcheckZip.
  { subst checkZip.
    destruct (negb (String.length (cleanZip zipCode) =? 5)%nat); [apply Hforeign|].
    destruct (negb (isVirginiaZipCode (cleanZip zipCode))); [apply Hforeign|].
    destruct (getCountyFromZip (cleanZip zipCode)) as [c|] eqn:Hc; cbn.
    - apply getCountyFromZip_Some, entry_wf_of in Hc as (_ & _ & Ht & Hreg).
      rewrite Ht. repeat split; try done.
      all: try (intros ? [= <-]; done).
    - repeat split; done. }
  destruct state as [st|]; [|exact HcheckZip].
  destruct (truthy st && _ && _); [apply Hforeign|exact HcheckZip].
Qed.

Lemma upper_V_iff (c : ascii) : upper_char c = "V"%char <-> lower_char c = "v"%char.
Proof.
  destruct c as [[] [] [] [] [] [] [] []]; vm_compute; split; congruence.
Qed.

Lemma upper_A_iff (c : ascii) : upper_char c = "A"%char <-> lower_char c = "a"%char.
Proof.
  destruct c as [[] [] [] [] [] [] [] []]; vm_compute; split; congruence.
Qed.

Lemma toUpperCase_VA_iff (st : string) :
  toUpperCase st = "VA" <-> toLowerCase st = "va".
Proof.
  destruct st as [|c1 [|c2 [|c3 st]]]; cbn; try (split; discriminate).
  split; intros [= H1 H2]; f_equal;
    try (apply upper_V_iff; done); try (apply upper_V_iff in H1; done);
    f_equal; try (apply upper_A_iff; done); apply upper_A_iff in H2; done.
Qed.

(** The states the validator takes for Virginia: the empty string, and
    ["VA"] and ["Virginia"] in any letter case. *)
Definition denotes_virginia (st : string) : Prop :=
  st = "" ∨ toLowerCase st = "va" ∨ toLowerCase st = "virginia".

(** X3: the state argument is read without regard to letter case: the empty
    string, any spelling of "va" and any spelling of "virginia" give the
    result of the call without a state; every other state gives the
    out-of-area result that quotes it, and the lead is archived, whatever the
    ZIP code is. *)
Theorem state_argument (zipCode st : string) :
  (denotes_virginia st ->
     validateLeadLocation zipCode (Some st) = validateLeadLocation zipCode None)
  ∧ (¬ denotes_virginia st ->
     validateLeadLocation zipCode (Some st)
     = mkValidationResult false false None None
         ("Lead is outside Virginia service area (" ++ st ++ ")")
     ∧ shouldAutoArchive zipCode (Some st) = true).
Proof.
  unfold denotes_virginia, shouldAutoArchive, validateLeadLocation, truthy.
  destruct (String.eqb_spec st "") as [->|Hne];
    [split; [done|intros []; by left]|].
  destruct (String.eqb_spec (toUpperCase st) "VA") as [Hva%toUpperCase_VA_iff|Hva];
    [split; [done|intros []; auto]|].
  destruct (String.eqb_spec (toLowerCase st) "virginia") as [Hvi|Hvi];
    [split; [done|intros []; auto]|].
  cbn. split; [|done].
  intros [?|[?%toUpperCase_VA_iff|?]]; done.
Qed.

Lemma state_argument_witness :
  validateLeadLocation "22030" (Some "Va") = validateLeadLocation "22030" None
  ∧ shouldAutoArchive "22030" (Some " VA") = true.
Proof.
  split.
  - apply (proj1 (state_argument "22030" "Va")). right. left. reflexivity.
  - apply (proj2 (state_argument "22030" " VA")).
    intros [H|[H|H]]; vm_compute in H; discriminate.
Defined.

(** X4: a ZIP argument with fewer than five digits is answered with the
    format error, is not Virginian for [isVirginiaZipCode], has no county, and
    the lead is archived. *)
Theorem short_zip_rejected (zipCode : string) :
  String.length (strip_non_digits zipCode) < 5 ->
  validateLeadLocation zipCode None
  = mkValidationResult false false None None "Invalid ZIP code format"
  ∧ isVirginiaZipCode zipCode = false
  ∧ getCountyFromZip zipCode = None
  ∧ shouldAutoArchive zipCode None = true.
Proof.
  intros Hlen.
  assert (String.length (cleanZip zipCode) ≠ 5) as Hclean.
  { unfold cleanZip. rewrite substring0_all by lia. lia. }
  apply Nat.eqb_neq in Hclean.
  unfold shouldAutoArchive, validateLeadLocation, isVirginiaZipCode.
  rewrite Hclean. cbn. repeat split.
  destruct (getCountyFromZip zipCode) as [c|] eqn:Hc; [|done].
  apply getCountyFromZip_Some, entry_wf_of in Hc as (Hfive & _).
  apply Nat.eqb_neq in Hclean. done.
Qed.

Lemma short_zip_rejected_witness :
  String.length (strip_non_digits "VA 2203") < 5
  ∧ shouldAutoArchive "VA 2203" None = true.
Proof.
  assert (String.length (strip_non_digits "VA 2203") < 5) as H by (vm_compute; lia).
  split; [exact H|].
  exact (proj2 (proj2 (proj2 (short_zip_rejected "VA 2203" H)))).
Defined.

Lemma getRegionFromCounty_lower (c1 c2 : string) :
  toLowerCase c1 = toLowerCase c2 -> getRegionFromCounty c1 = getRegionFromCounty c2.
Proof. intros H. unfold getRegionFromCounty. by rewrite H. Qed.

Definition region_entry_ok (entry : string * list string) : bool :=
  forallb (fun c => bool_decide (getRegionFromCounty c = Some entry.1)) entry.2.

Lemma region_entries_ok : forallb region_entry_ok VA_COUNTIES = true.
Proof. vm_compute. reflexivity. Qed.

(** X5: a county of one of the four regions, spelled in any letter case, is
    mapped back to that region: no county is listed under two regions, and
    the look-up ignores case. *)
Theorem getRegionFromCounty_round_trip (region county spelled : string)
    (counties : list string) :
  (region, counties) ∈ VA_COUNTIES -> county ∈ counties ->
  toLowerCase spelled = toLowerCase county ->
  getRegionFromCounty spelled = Some region.
Proof.
  intros Hentry%list_elem_of_In Hcounty%list_elem_of_In Hspelled.
  rewrite (getRegionFromCounty_lower _ _ Hspelled).
  pose proof region_entries_ok as Hall. rewrite forallb_forall in Hall.
  specialize (Hall _ Hentry). unfold region_entry_ok in Hall. cbn [fst snd] in Hall.
  rewrite forallb_forall in Hall. specialize (Hall _ Hcounty).
  by apply bool_decide_eq_true in Hall.
Qed.

Lemma getRegionFromCounty_round_trip_witness :
  getRegionFromCounty "HENRICO" = Some "richmondMetro".
Proof.
  apply (getRegionFromCounty_round_trip "richmondMetro" "Henrico" "HENRICO"
           ["Richmond"; "Henrico"; "Chesterfield"; "Hanover"; "Goochland";
            "Powhatan"; "Colonial Heights"; "Petersburg"]).
  - vm_compute. set_solver.
  - set_solver.
  - reflexivity.
Defined.

End GeofenceProps.

(** ** More on the service classifier *)
Module CategorizationProps.
Import JS Categorization.

Definition services : list ServiceType := fst <$> SERVICE_TO_TIER.

Lemma keyword_targets_canonical :
  forallb (fun kw => bool_decide (kw.2 ∈ services)) keywordMap = true.
Proof. vm_compute. reflexivity. Qed.

Lemma findClosestService_services (input : string) (service : ServiceType) :
  findClosestService input = Some service -> service ∈ services.
Proof.
  unfold findClosestService.
  destruct (directMatch _) as [s1|] eqn:E1.
  { intros [= <-]. apply find_some in E1 as [Hin _]. by apply list_elem_of_In. }
  destruct (partialMatch _) as [s2|] eqn:E2.
  { intros [= <-]. apply find_some in E2 as [Hin _]. by apply list_elem_of_In. }
  unfold keywordMatch.
  destruct (List.find _ keywordMap) as [kw|] eqn:E3; [|done].
  intros [= <-]. apply find_some in E3 as [Hin _].
  pose proof keyword_targets_canonical as Hall. rewrite forallb_forall in Hall.
  specialize (Hall _ Hin). by apply bool_decide_eq_true in Hall.
Qed.

(** X6: when [findClosestService] answers with a service, that service is
    one of the 17 names of [SERVICE_TO_TIER], whatever the input was and
    whichever of the three passes found it. *)
Theorem findClosestService_canonical (input : string) (service : ServiceType) :
  findClosestService input = Some service ->
  service ∈ services ∧ is_Some (lookup_tier service).
Proof.
  intros Hin%findClosestService_services. split; [done|].
  unfold services in Hin. apply list_elem_of_fmap in Hin as ([s t] & -> & Hin).
  exists t. cbv [SERVICE_TO_TIER] in Hin.
  repeat (apply elem_of_cons in Hin as [[= -> ->]|Hin]; [reflexivity|]).
  by apply elem_of_nil in Hin.
Qed.

Lemma findClosestService_canonical_witness :
  "Roofing" ∈ services.
Proof.
  apply (findClosestService_canonical "need a new roof ASAP"). reflexivity.
Defined.


Lemma directMatch_services :
  forallb (fun s => bool_decide (directMatch (toLowerCase s) = Some s)) services = true.
Proof. vm_compute. reflexivity. Qed.

(** X7: an input that is one of the 17 service names up to letter case and
    surrounding white space is classified as that service, by the exact
    pass. *)
Theorem findClosestService_exact (input : string) (service : ServiceType) :
  service ∈ services ->
  trim (toLowerCase input) = toLowerCase service ->
  findClosestService input = Some service.
Proof.
  intros Hin%list_elem_of_In Hnorm.
  pose proof directMatch_services as Hall. rewrite forallb_forall in Hall.
  specialize (Hall _ Hin). apply bool_decide_eq_true in Hall.
  unfold findClosestService. by rewrite Hnorm, Hall.
Qed.

Lemma findClosestService_exact_witness :
  findClosestService "  she-SHED " = Some "She-Shed".
Proof.
  apply findClosestService_exact; [vm_compute; set_solver|reflexivity].
Defined.

Lemma is_space_lower (c : ascii) : is_space c = true -> lower_char c = c.
Proof.
  destruct c as [[] [] [] [] [] [] [] []]; vm_compute; congruence.
Qed.

Lemma toLowerCase_spaces (s : string) :
  sforall is_space s = true -> toLowerCase s = s.
Proof.
  induction s as [|c s IH]; cbn; [done|].
  intros [Hc Hs]%andb_true_iff. by rewrite (is_space_lower c Hc), (IH Hs).
Qed.

Lemma trimStart_spaces (s : string) :
  sforall is_space s = true -> trimStart s = "".
Proof.
  induction s as [|c s IH]; cbn; [done|].
  intros [Hc Hs]%andb_true_iff. rewrite Hc. auto.
Qed.

Lemma trim_spaces (s : string) : sforall is_space s = true -> trim s = "".
Proof. intros H. unfold trim. by rewrite trimStart_spaces. Qed.

(** X8: an input made of white space only, the empty string included, is
    classified as "New Construction": no name equals the empty string, and
    every name contains it, so the substring pass stops at the first name of
    the table. *)
Theorem findClosestService_blank (input : string) :
  sforall is_space input = true ->
  findClosestService input = Some "New Construction".
Proof.
  intros H. unfold findClosestService.
  rewrite (toLowerCase_spaces _ H), (trim_spaces _ H). reflexivity.
Qed.

Lemma findClosestService_blank_witness :
  findClosestService "   " = Some "New Construction".
Proof. apply findClosestService_blank. reflexivity. Defined.

Lemma lookup_tier_Some (s : ServiceType) (t : ServiceTier) :
  lookup_tier s = Some t <-> (s, t) ∈ SERVICE_TO_TIER.
Proof.
  split.
  - unfold lookup_tier.
    match goal with
    | |- context [List.find ?f ?l] => destruct (List.find f l) as [[s' t']|] eqn:E
    end; [|done].
    intros [= ->]. apply find_some in E as [Hin Heq].
    apply String.eqb_eq in Heq. cbn in Heq. subst s'.
    by apply list_elem_of_In.
  - intros Hin. cbv [SERVICE_TO_TIER] in Hin.
    repeat (apply elem_of_cons in Hin as [[= -> ->]|Hin]; [reflexivity|]).
    by apply elem_of_nil in Hin.
Qed.

(** X9: [getServicesForTier] lists exactly the services that the table
    maps to the tier, so [getServiceTier] gives the tier back on each of
    them; the four lists have 3, 4, 6 and 4 services. *)
Theorem getServicesForTier_round_trip (s : ServiceType) (t : ServiceTier) :
  (s ∈ getServicesForTier t <-> lookup_tier s = Some t)
  ∧ (s ∈ getServicesForTier t -> getServiceTier s = t)
  ∧ length (getServicesForTier t)
    = match t with EPIC => 3 | MODERNIZE => 4 | EXTERIOR => 6 | SERVICE => 4 end.
Proof.
  assert (s ∈ getServicesForTier t <-> lookup_tier s = Some t) as Hiff.
  { rewrite lookup_tier_Some. unfold getServicesForTier.
    rewrite list_elem_of_fmap. split.
    - intros ([s' t'] & -> & Hin%list_elem_of_In).
      apply filter_In in Hin as [Hin Ht]. apply bool_decide_eq_true in Ht.
      cbn in Ht. subst t'. by apply list_elem_of_In.
    - intros Hin. exists (s, t). split; [done|].
      apply list_elem_of_In, filter_In. split; [by apply list_elem_of_In|].
      by apply bool_decide_eq_true. }
  split; [exact Hiff|]. split.
  - intros Hin%Hiff. unfold getServiceTier. by rewrite Hin.
  - by destruct t.
Qed.

Lemma getServicesForTier_round_trip_witness :
  getServiceTier "Siding" = EXTERIOR.
Proof.
  apply (getServicesForTier_round_trip "Siding" EXTERIOR).
  vm_compute. set_solver.
Defined.

End CategorizationProps.

(** ** More on the tagging engine *)
Module TaggingProps.
Import JS Tagging.

(** The conditions of the five rules, as [assignLeadTags] evaluates them. *)
Definition whale_rule (input : TagInput) : bool :=
  array_includes WHALE_SERVICES (serviceType input)
  || match estimatedValue input with
     | Some ev => Num.truthy ev && (ev >=? Num.of_Z 100000)%num
     | None => false
     end.

Definition quick_turn_rule (input : TagInput) : bool :=
  array_includes QUICK_TURN_SERVICES (serviceType input).

Definition luxury_rule (input : TagInput) : bool :=
  existsb (fun area => includes (toLowerCase (location input)) (toLowerCase area))
          LUXURY_AREAS
  || match county input with
     | Some c =>
         truthy c
         && existsb (fun c' => String.eqb (toLowerCase c') (toLowerCase c))
                    LUXURY_COUNTIES
     | None => false
     end.

Definition commercial_rule (input : TagInput) : bool :=
  bool_decide (leadType input = Some "Commercial"
               ∨ leadType input = Some "HOA Manager").

Definition multi_unit_rule (input : TagInput) : bool :=
  bool_decide (leadType input = Some "Property Manager"
               ∨ leadType input = Some "Investor").

Definition when (b : bool) (t : LeadTag) : list LeadTag := if b then [t] else [].

Lemma leadType_is_decide (input : TagInput) (s : string) :
  leadType_is input s = bool_decide (leadType input = Some s).
Proof.
  unfold leadType_is. destruct (leadType input) as [l|].
  - destruct (String.eqb_spec l s) as [->|Hne].
    + by rewrite bool_decide_eq_true_2.
    + rewrite bool_decide_eq_false_2; [done|]. by intros [= ->].
  - by rewrite bool_decide_eq_false_2.
Qed.

(** The list of tags in closed form: one optional tag per rule, in the
    order of the rules. *)
Lemma assignLeadTags_closed_form (input : TagInput) :
  assignLeadTags input
  = (when (whale_rule input) Whale ++ when (quick_turn_rule input) QuickTurn
     ++ when (luxury_rule input) Luxury ++ when (commercial_rule input) Commercial
     ++ when (multi_unit_rule input) MultiUnit)%list.
Proof.
  unfold assignLeadTags, whale_rule, quick_turn_rule, luxury_rule,
    commercial_rule, multi_unit_rule.
  rewrite !leadType_is_decide.
  rewrite <- !bool_decide_or.
  destruct (array_includes WHALE_SERVICES (serviceType input));
    destruct (estimatedValue input) as [ev|];
    try destruct (Num.truthy ev && (ev >=? Num.of_Z 100000)%num);
    destruct (array_includes QUICK_TURN_SERVICES (serviceType input));
    destruct (existsb _ LUXURY_AREAS);
    destruct (county input) as [c|];
    try destruct (truthy c && _);
    destruct (bool_decide (_ ∨ _));
    destruct (bool_decide (_ ∨ _));
    reflexivity.
Qed.

(** X10: each tag is in the list exactly when its rule holds, and the tags
    come in the order Whale, Quick-Turn, Luxury, Commercial, Multi-Unit. *)
Theorem assignLeadTags_rules (input : TagInput) :
  let tags := assignLeadTags input in
  (Whale ∈ tags <-> whale_rule input = true)
  ∧ (QuickTurn ∈ tags <-> quick_turn_rule input = true)
  ∧ (Luxury ∈ tags <-> luxury_rule input = true)
  ∧ (Commercial ∈ tags <-> commercial_rule input = true)
  ∧ (MultiUnit ∈ tags <-> multi_unit_rule input = true)
  ∧ sublist tags [Whale; QuickTurn; Luxury; Commercial; MultiUnit].
Proof.
  cbn zeta. rewrite assignLeadTags_closed_form.
  destruct (whale_rule input), (quick_turn_rule input), (luxury_rule input),
    (commercial_rule input), (multi_unit_rule input);
    (repeat (split; [apply (bool_decide_unpack _); vm_compute; reflexivity|]));
    cbn; repeat first [apply sublist_nil | apply sublist_skip | apply sublist_cons].
Qed.

(** X11: Commercial and Multi-Unit never come together, since one lead type
    cannot satisfy both rules; so a lead has at most four tags and a tag bonus
    of at most 36. *)
Theorem assignLeadTags_at_most_four (input : TagInput) :
  ¬ (Commercial ∈ assignLeadTags input ∧ MultiUnit ∈ assignLeadTags input)
  ∧ length (assignLeadTags input) <= 4
  ∧ (calculateTagBonus (assignLeadTags input) <= 36)%Z.
Proof.
  rewrite assignLeadTags_closed_form.
  assert (commercial_rule input && multi_unit_rule input = false) as Hexcl.
  { unfold commercial_rule, multi_unit_rule.
    destruct (leadType input) as [l|]; [|done].
    apply andb_false_iff.
    destruct (bool_decide _) eqn:E; [|by left]. right.
    apply bool_decide_eq_true in E. apply bool_decide_eq_false.
    destruct E as [[= ->]|[= ->]]; intros [[=]|[=]]. }
  destruct (whale_rule input), (quick_turn_rule input), (luxury_rule input),
    (commercial_rule input), (multi_unit_rule input);
    try discriminate Hexcl;
    (split; [apply (bool_decide_unpack _); vm_compute; reflexivity
            |split; [cbn; lia|vm_compute; discriminate]]).
Qed.

Definition tag_weight (t : LeadTag) : Z :=
  match t with
  | Whale => 15
  | Luxury => 10
  | MultiUnit => 8
  | Commercial => 5
  | QuickTurn => 3
  end.

Lemma has_cons (x t : LeadTag) (l : list LeadTag) :
  has (x :: l) t = bool_decide (t = x) || has l t.
Proof.
  unfold has. apply eq_true_iff_eq.
  rewrite orb_true_iff, !bool_decide_eq_true. apply elem_of_cons.
Qed.

Lemma calculateTagBonus_cons (x : LeadTag) (l : list LeadTag) :
  x ∉ l -> calculateTagBonus (x :: l) = (tag_weight x + calculateTagBonus l)%Z.
Proof.
  intros Hx%(bool_decide_eq_false_2 _). fold (has l x) in Hx.
  unfold calculateTagBonus. rewrite !has_cons.
  destruct x;
    repeat match goal with
      | |- context [bool_decide (?a = ?b)] =>
          let v := eval vm_compute in (bool_decide (a = b)) in
          change (bool_decide (a = b)) with v
      end;
    rewrite Hx;
    destruct (has l Whale), (has l Luxury), (has l MultiUnit),
      (has l Commercial), (has l QuickTurn); try discriminate Hx;
    cbn; lia.
Qed.

(** X12: the tag bonus looks at which tags are present only: two lists with
    the same tags get the same bonus, whatever the order and the repetitions,
    and the bonus of a list without repetitions is the sum of the weights
    Whale 15, Luxury 10, Multi-Unit 8, Commercial 5, Quick-Turn 3. *)
Theorem calculateTagBonus_additive (tags tags' : list LeadTag) :
  ((∀ t, t ∈ tags <-> t ∈ tags') ->
     calculateTagBonus tags = calculateTagBonus tags')
  ∧ (NoDup tags ->
     calculateTagBonus tags = foldr Z.add 0%Z (tag_weight <$> tags)).
Proof.
  split.
  - intros Hsame. unfold calculateTagBonus, has.
    by rewrite !(bool_decide_ext _ _ (Hsame _)).
  - induction 1 as [|x l Hx Hnd IH]; [done|].
    rewrite calculateTagBonus_cons by done. cbn. by rewrite IH.
Qed.

Lemma calculateTagBonus_additive_witness :
  calculateTagBonus [Luxury; Whale; Luxury] = calculateTagBonus [Whale; Luxury]
  ∧ calculateTagBonus [Whale; Luxury] = 25%Z.
Proof.
  split.
  - apply (calculateTagBonus_additive [Luxury; Whale; Luxury] [Whale; Luxury]).
    intros t. rewrite !elem_of_cons. tauto.
  - apply (proj2 (calculateTagBonus_additive [Whale; Luxury] [])).
    apply (bool_decide_unpack _). reflexivity.
Defined.

Definition by_priority (a b : LeadTag) : Prop :=
  (getTagPriority a <= getTagPriority b)%Z.

Lemma sort_insert_Permutation {A : Type} (compare : A -> A -> Z) (x : A)
    (l : list A) :
  sort_insert compare x l ≡ₚ x :: l.
Proof.
  induction l as [|y l IH]; cbn; [done|].
  destruct (compare x y <=? 0)%Z; [done|].
  rewrite IH. apply Permutation_swap.
Qed.

Lemma sort_insert_sorted (x : LeadTag) (l : list LeadTag) :
  StronglySorted by_priority l ->
  StronglySorted by_priority
    (sort_insert (fun a b => getTagPriority a - getTagPriority b)%Z x l).
Proof.
  induction 1 as [|y l Hs IH Hall]; cbn; [by repeat constructor|].
  destruct (Z.leb_spec (getTagPriority x - getTagPriority y) 0) as [Hle|Hgt].
  - constructor; [by constructor|]. constructor; [unfold by_priority; lia|].
    eapply Forall_impl; [exact Hall|]. unfold by_priority. intros; lia.
  - constructor; [done|].
    rewrite sort_insert_Permutation. constructor; [unfold by_priority; lia|done].
Qed.

Lemma array_sort_sorted_id (l : list LeadTag) :
  StronglySorted by_priority l ->
  array_sort (fun a b => getTagPriority a - getTagPriority b)%Z l = l.
Proof.
  induction 1 as [|x l Hs IH Hall]; [done|].
  cbn. fold (array_sort (fun a b => getTagPriority a - getTagPriority b)%Z l).
  rewrite IH. destruct Hall as [|y l Hxy _]; [done|]. cbn.
  unfold by_priority in Hxy.
  destruct (Z.leb_spec (getTagPriority x - getTagPriority y) 0); [done|lia].
Qed.

(** X13: [sortTagsByPriority] returns the same tags, repetitions included,
    in the order of their priority numbers; sorting a second time changes
    nothing. *)
Theorem sortTagsByPriority_sorts (tags : list LeadTag) :
  sortTagsByPriority tags ≡ₚ tags
  ∧ StronglySorted by_priority (sortTagsByPriority tags)
  ∧ sortTagsByPriority (sortTagsByPriority tags) = sortTagsByPriority tags.
Proof.
  assert (sortTagsByPriority tags ≡ₚ tags
          ∧ StronglySorted by_priority (sortTagsByPriority tags)) as [Hp Hs].
  { unfold sortTagsByPriority, array_sort.
    induction tags as [|x l [IHp IHs]]; cbn; [split; [done|constructor]|].
    split.
    - by rewrite sort_insert_Permutation, IHp.
    - by apply sort_insert_sorted. }
  split; [done|]. split; [done|].
  by apply array_sort_sorted_id.
Qed.

End TaggingProps.

(** ** More on the scoring engine *)
Module ScoringProps.
Import JS Num NumFacts Categorization Scoring ScoringFacts.
Local Open Scope Q_scope.






Lemma Qfloor_half_upper (n : Z) (q : Q) :
  q <= inject_Z n -> (Qfloor (q + (1 # 2)) <= n)%Z.
Proof.
  intros H. pose proof (Qfloor_le (q + (1 # 2))) as Hf.
  assert (Qfloor (q + (1 # 2)) < n + 1)%Z; [|lia].
  rewrite Zlt_Qlt, inject_Z_plus. change (inject_Z 1) with 1. lra.
Qed.




(** *** The score in closed form *)

Definition numQ (x : number) : Q :=
  match x with Fin q => q | _ => 0 end.

Definition tagQ (input : LeadScoreInput) : Q :=
  if (0 <? length (default [] (tags input)))%nat
  then inject_Z (Tagging.calculateTagBonus (default [] (tags input)))
  else 0.

(** The weighted sum with the tag bonus. *)
Definition preQ (input : LeadScoreInput) : Q :=
  numQ (tierScore input) * (2 # 5) + numQ (scopeScore input) * (1 # 4)
  + numQ (valueScore input) * (1 # 5) + numQ (locationScore input) * (1 # 10)
  + numQ (engagementScore input) * (1 # 20) + tagQ input.

(** The confidence bonus; [None] stands for plus infinity. *)
Definition confQ (input : LeadScoreInput) : option Q :=
  match confidenceScore input with
  | Some cs =>
      if truthy cs && (cs >? of_Z 0)%num then
        match cs with
        | Fin c => Some (c * (1 # 20))
        | _ => None
        end
      else Some 0
  | None => Some 0
  end.

Definition scoreZ (input : LeadScoreInput) : Z :=
  match confQ input with
  | Some c => Z.min 100 (Z.max 0 (Qfloor (preQ input + c + (1 # 2))))
  | None => 100
  end.

Lemma pre_formula (input : LeadScoreInput) :
  ∃ q, withTags input (baseFrom input (valueScore input)) = Fin q
       ∧ q == preQ input.
Proof.
  unfold preQ, tagQ, withTags, baseFrom.
  destruct (tierScore_spec input) as (t & -> & _).
  destruct (scopeScore_spec input) as (s & -> & _).
  destruct (locationScore_spec input) as (l & -> & _).
  destruct (engagementScore_spec input) as (e & -> & _).
  destruct (valueScore_spec input) as (v & -> & _).
  destruct (0 <? length _)%nat; cbn; eexists; (split; [reflexivity|lra]).
Qed.

Lemma confQ_nonneg (input : LeadScoreInput) (c : Q) :
  confQ input = Some c -> 0 <= c.
Proof.
  unfold confQ. destruct (confidenceScore input) as [cs|]; [|intros [= <-]; lra].
  destruct (truthy cs && _) eqn:Hguard; [|intros [= <-]; lra].
  destruct cs as [| |q]; try discriminate. intros [= <-].
  apply andb_true_iff in Hguard as [_ Hpos].
  unfold gtb, ltb, of_Z in Hpos. apply Qlt_bool_true in Hpos.
  unfold inject_Z in Hpos. lra.
Qed.

Lemma score_formula (input : LeadScoreInput) :
  calculateLeadScore input = of_Z (scoreZ input).
Proof.
  unfold calculateLeadScore, scoreZ. rewrite weightedScore_stages.
  destruct (pre_formula input) as (q & -> & Hq).
  unfold withConfidence, confQ.
  destruct (confidenceScore input) as [cs|].
  - destruct (truthy cs && _) eqn:Hguard.
    + destruct cs as [|[]|c]; try discriminate; [reflexivity|].
      assert (Fin q + Fin c / of_Z 100 * of_Z 5
              = Fin (q + c / inject_Z 100 * inject_Z 5))%num as -> by reflexivity.
      rewrite clamp_Fin. do 3 f_equal. apply Qfloor_comp.
      rewrite Hq. unfold inject_Z. field.
    + rewrite clamp_Fin. do 3 f_equal. apply Qfloor_comp. lra.
  - rewrite clamp_Fin. do 3 f_equal. apply Qfloor_comp. lra.
Qed.

Lemma tierScore_numQ (input : LeadScoreInput) :
  numQ (tierScore input)
  = inject_Z (baseScore (TIER_CONFIG (serviceTier input))).
Proof. reflexivity. Qed.

Lemma component_bounds (input : LeadScoreInput) :
  20 <= numQ (scopeScore input) <= 100
  ∧ 30 <= numQ (valueScore input) <= 100
  ∧ 70 <= numQ (locationScore input) <= 100
  ∧ 0 <= numQ (engagementScore input) <= 100
  ∧ 0 <= tagQ input <= 41.
Proof.
  destruct (scopeScore_spec input) as (s & -> & ?).
  destruct (locationScore_spec input) as (l & -> & ?).
  destruct (engagementScore_spec input) as (e & -> & ?).
  destruct (valueScore_spec input) as (v & -> & ?).
  cbn [numQ]. repeat split; try tauto; unfold tagQ;
    pose proof (TaggingFacts.calculateTagBonus_bounds (default [] (tags input)))
      as [Hlo Hhi];
    destruct (0 <? length _)%nat; try lra;
    rewrite Zle_Qle in Hlo, Hhi; change (inject_Z 0) with 0 in Hlo;
    change (inject_Z 41) with 41 in Hhi; lra.
Qed.

Definition isNoVA (c : option string) : bool :=
  match c with
  | Some c =>
      JS.truthy c
      && existsb (fun c' => String.eqb (toLowerCase c') (toLowerCase c)) NOVA_COUNTIES
  | None => false
  end.


Lemma preQ_lower (input : LeadScoreInput) :
  inject_Z (baseScore (TIER_CONFIG (serviceTier input))) * (2 # 5) + 18
  <= preQ input.
Proof.
  pose proof (component_bounds input). unfold preQ.
  rewrite tierScore_numQ. lra.
Qed.

Lemma preQ_26 (input : LeadScoreInput) : 26 <= preQ input.
Proof.
  pose proof (preQ_lower input) as H.
  destruct (serviceTier input); cbn in H; unfold inject_Z in H; lra.
Qed.

Lemma scoreZ_mono (input1 input2 : LeadScoreInput) :
  confQ input1 = confQ input2 -> preQ input1 <= preQ input2 ->
  (scoreZ input1 <= scoreZ input2)%Z.
Proof.
  intros Hc Hp. unfold scoreZ. rewrite Hc.
  destruct (confQ input2) as [c|]; [|lia].
  assert (Qfloor (preQ input1 + c + (1 # 2)) <= Qfloor (preQ input2 + c + (1 # 2)))%Z
    by (apply Qfloor_resp_le; lra).
  lia.
Qed.


Lemma scoreZ_range (input : LeadScoreInput) : (26 <= scoreZ input <= 100)%Z.
Proof.
  unfold scoreZ. destruct (confQ input) as [c|] eqn:E; [|lia].
  pose proof (confQ_nonneg _ _ E). pose proof (preQ_26 input).
  assert (26 <= Qfloor (preQ input + c + (1 # 2)))%Z
    by (apply Qfloor_half_lower; unfold inject_Z; lra).
  lia.
Qed.

Lemma getScoreLabel_of_Z (n : Z) :
  getScoreLabel (of_Z n)
  = if (80 <=? n)%Z then "Hot Lead"
    else if (60 <=? n)%Z then "Warm Lead"
    else if (40 <=? n)%Z then "Cool Lead"
    else "Cold Lead".
Proof. unfold getScoreLabel, geb. by rewrite !leb_of_Z. Qed.



Definition tier_floor (t : ServiceTier) : Z :=
  match t with EPIC => 50 | MODERNIZE => 42 | EXTERIOR => 34 | SERVICE => 26 end.

Definition tier_cap (t : ServiceTier) : Z :=
  match t with EPIC => 92 | MODERNIZE => 84 | EXTERIOR => 76 | SERVICE => 68 end.

Lemma scoreZ_tier_floor (input : LeadScoreInput) :
  (tier_floor (serviceTier input) <= scoreZ input <= 100)%Z.
Proof.
  pose proof (scoreZ_range input). split; [|lia].
  unfold scoreZ. destruct (confQ input) as [c|] eqn:E.
  - pose proof (confQ_nonneg _ _ E). pose proof (preQ_lower input) as Hp.
    assert (tier_floor (serviceTier input) <= Qfloor (preQ input + c + (1 # 2)))%Z.
    { apply Qfloor_half_lower.
      destruct (serviceTier input); cbn in *; unfold inject_Z in *; lra. }
    destruct (serviceTier input); cbn in *; lia.
  - destruct (serviceTier input); cbn; lia.
Qed.

(** X16: every tier has its own floor: an EPIC lead scores at least 50, a
    MODERNIZE lead 42, an EXTERIOR lead 34, a SERVICE lead 26; so an EPIC or
    MODERNIZE lead is never labelled "Cold Lead". *)
Theorem score_floor_per_tier (input : LeadScoreInput) :
  (∃ n : Z, calculateLeadScore input = of_Z n
            ∧ (tier_floor (serviceTier input) <= n <= 100)%Z)
  ∧ (serviceTier input = EPIC ∨ serviceTier input = MODERNIZE ->
     getScoreLabel (calculateLeadScore input) ≠ "Cold Lead").
Proof.
  pose proof (scoreZ_tier_floor input) as Hn.
  rewrite score_formula. split; [eauto|].
  intros Htier. rewrite getScoreLabel_of_Z.
  assert (42 <= scoreZ input)%Z by (destruct Htier as [E|E]; rewrite E in Hn; cbn in Hn; lia).
  repeat case_match; try done; lia.
Qed.

Lemma score_floor_per_tier_witness :
  getScoreLabel
    (calculateLeadScore
       (mkLeadScoreInput MODERNIZE (Some small) (Some (of_Z 5000)) None
          None None None None))
  ≠ "Cold Lead".
Proof.
  apply (proj2 (score_floor_per_tier
    (mkLeadScoreInput MODERNIZE (Some small) (Some (of_Z 5000)) None
       None None None None))).
  right. reflexivity.
Defined.

(** X17: without tags and without a confidence score the factors alone cap
    the score: 92 for EPIC, 84 for MODERNIZE, 76 for EXTERIOR, 68 for
    SERVICE; so an EXTERIOR or SERVICE lead is then never labelled
    "Hot Lead". *)
Theorem score_cap_without_bonus (input : LeadScoreInput) :
  tags input = None ∨ tags input = Some [] ->
  confidenceScore input = None ->
  (∃ n : Z, calculateLeadScore input = of_Z n
            ∧ (n <= tier_cap (serviceTier input))%Z)
  ∧ (serviceTier input = EXTERIOR ∨ serviceTier input = SERVICE ->
     getScoreLabel (calculateLeadScore input) ≠ "Hot Lead").
Proof.
  intros Htags Hconf.
  assert (scoreZ input <= tier_cap (serviceTier input))%Z as Hn.
  { unfold scoreZ, confQ. rewrite Hconf.
    pose proof (component_bounds input) as (? & ? & ? & ? & _).
    assert (tagQ input = 0) as Htag
      by (unfold tagQ; destruct Htags as [-> | ->]; reflexivity).
    assert (preQ input
            <= inject_Z (baseScore (TIER_CONFIG (serviceTier input))) * (2 # 5) + 60)
      as Hp by (unfold preQ; rewrite tierScore_numQ, Htag; lra).
    assert (Qfloor (preQ input + 0 + (1 # 2)) <= tier_cap (serviceTier input))%Z.
    { apply Qfloor_half_upper.
      destruct (serviceTier input); cbn in *; unfold inject_Z in *; lra. }
    destruct (serviceTier input); cbn in *; lia. }
  rewrite score_formula. split; [eauto|].
  intros Htier. rewrite getScoreLabel_of_Z.
  assert (scoreZ input <= 76)%Z by (destruct Htier as [E|E]; rewrite E in Hn; cbn in Hn; lia).
  repeat case_match; try done; lia.
Qed.

Lemma score_cap_without_bonus_witness :
  getScoreLabel
    (calculateLeadScore
       (mkLeadScoreInput EXTERIOR (Some enterprise) (Some (of_Z 90000))
          (Some "Fairfax") (Some true) (Some true) None None))
  ≠ "Hot Lead".
Proof.
  apply (proj2 (score_cap_without_bonus
    (mkLeadScoreInput EXTERIOR (Some enterprise) (Some (of_Z 90000))
       (Some "Fairfax") (Some true) (Some true) None None)
    (or_introl eq_refl) eq_refl)).
  left. reflexivity.
Defined.

(** An optional number that the guards [x && x > 0] turn down: missing,
    NaN, minus infinity, zero or negative. *)
Definition not_positive (x : option number) : Prop :=
  x = None ∨ x = Some NaN ∨ x = Some (Inf false)
  ∨ ∃ q, x = Some (Fin q) ∧ q <= 0.

Lemma guard_not_positive (x : number) :
  not_positive (Some x) -> truthy x && (x >? of_Z 0)%num = false.
Proof.
  intros [[=]|[[= ->]|[[= ->]|(q & [= ->] & Hq)]]]; try reflexivity.
  apply andb_false_iff. right.
  unfold gtb, ltb, of_Z. apply Qlt_bool_false. unfold inject_Z. lra.
Qed.

Lemma guard_positive (q : Q) :
  0 < q -> truthy (Fin q) && (Fin q >? of_Z 0)%num = true.
Proof.
  intros Hq. apply andb_true_iff. split.
  - cbn. apply negb_true_iff, not_true_iff_false. rewrite Qeq_bool_iff. lra.
  - unfold gtb, ltb, of_Z. apply Qlt_bool_true. unfold inject_Z. lra.
Qed.

Lemma valueScore_not_positive (input : LeadScoreInput) (ev : option number) :
  not_positive ev -> valueScore (withValue input ev) = of_Z 50.
Proof.
  intros H. unfold valueScore. cbn [withValue estimatedValue].
  destruct ev as [x|]; [|done]. by rewrite guard_not_positive.
Qed.

Lemma valueScore_small (input : LeadScoreInput) (v : Q) :
  0 < v -> v <= inject_Z (minValue (TIER_CONFIG (serviceTier input))) ->
  valueScore (withValue input (Some (Fin v))) = of_Z 30.
Proof.
  intros Hpos Hmin. unfold valueScore.
  cbn [withValue estimatedValue serviceTier]. rewrite guard_positive by done.
  unfold geb, leb, of_Z.
  assert (Qle_bool (inject_Z (maxValue (TIER_CONFIG (serviceTier input)))) v = false)
    as ->.
  { apply Qle_bool_false.
    destruct (serviceTier input); cbn in *; unfold inject_Z in *; lra. }
  assert (Qle_bool v (inject_Z (minValue (TIER_CONFIG (serviceTier input)))) = true)
    as -> by (by apply Qle_bool_iff).
  done.
Qed.

Lemma preQ_withValue (input : LeadScoreInput) (ev : option number) :
  preQ (withValue input ev)
  = numQ (tierScore input) * (2 # 5) + numQ (scopeScore input) * (1 # 4)
    + numQ (valueScore (withValue input ev)) * (1 # 5)
    + numQ (locationScore input) * (1 # 10)
    + numQ (engagementScore input) * (1 # 20) + tagQ input.
Proof. reflexivity. Qed.

(** X18: an estimated value that is missing, NaN, zero or negative counts
    as the neutral value score 50, the same for all of them; a positive value
    at or below the minimum of the tier's range counts as 30, so such a lead
    never scores above the same lead without a value. *)
Theorem missing_value_is_neutral (input : LeadScoreInput) (ev : option number)
    (v : Q) :
  (not_positive ev ->
     valueScore (withValue input ev) = of_Z 50
     ∧ calculateLeadScore (withValue input ev)
       = calculateLeadScore (withValue input None))
  ∧ (0 < v -> v <= inject_Z (minValue (TIER_CONFIG (serviceTier input))) ->
     valueScore (withValue input (Some (Fin v))) = of_Z 30
     ∧ (calculateLeadScore (withValue input (Some (Fin v)))
        <=? calculateLeadScore (withValue input None))%num = true).
Proof.
  split.
  - intros H. split; [by apply valueScore_not_positive|].
    unfold calculateLeadScore.
    rewrite !weightedScore_withValue, !valueScore_not_positive;
      [done|by left|done].
  - intros Hpos Hmin. split; [by apply valueScore_small|].
    rewrite !score_formula, leb_of_Z. apply Z.leb_le.
    apply scoreZ_mono; [reflexivity|].
    rewrite !preQ_withValue, valueScore_small, valueScore_not_positive;
      [|by left|done..].
    cbn [numQ of_Z]. unfold inject_Z. lra.
Qed.

Lemma missing_value_is_neutral_witness :
  calculateLeadScore
    (mkLeadScoreInput SERVICE None (Some (of_Z (-500))) None None None None None)
  = calculateLeadScore
      (mkLeadScoreInput SERVICE None None None None None None None)
  ∧ (calculateLeadScore
       (mkLeadScoreInput SERVICE None (Some (Fin 1500)) None None None None None)
     <=? calculateLeadScore
           (mkLeadScoreInput SERVICE None None None None None None None))%num
    = true.
Proof.
  pose (input := mkLeadScoreInput SERVICE None None None None None None None).
  destruct (missing_value_is_neutral input (Some (of_Z (-500))) 1500) as [H1 H2].
  split.
  - apply H1. right; right; right. eexists. split; [reflexivity|].
    unfold Qle; simpl; lia.
  - apply H2; unfold Qlt, Qle; simpl; lia.
Defined.








(** X21: [estimateScopeFromValue] is monotone: a larger value never gets a
    scope with a smaller scope score; the four scopes start at 0, 10000,
    50000 and 150000; NaN and minus infinity give [small]. *)
Theorem estimateScopeFromValue_monotone (a b : Q) :
  (a <= b ->
     (SCOPE_SCORES (estimateScopeFromValue (Fin a))
      <= SCOPE_SCORES (estimateScopeFromValue (Fin b)))%Z)
  ∧ (estimateScopeFromValue (Fin a) = enterprise <-> 150000 <= a)
  ∧ (estimateScopeFromValue (Fin a) = large <-> 50000 <= a ∧ a < 150000)
  ∧ (estimateScopeFromValue (Fin a) = medium <-> 10000 <= a ∧ a < 50000)
  ∧ (estimateScopeFromValue (Fin a) = small <-> a < 10000)
  ∧ estimateScopeFromValue NaN = small
  ∧ estimateScopeFromValue (Inf false) = small
  ∧ estimateScopeFromValue (Inf true) = enterprise.
Proof.
  unfold estimateScopeFromValue, geb, leb, of_Z.
  change (inject_Z 150000) with 150000. change (inject_Z 50000) with 50000.
  change (inject_Z 10000) with 10000.
  repeat split; try reflexivity; try intros H;
    repeat match goal with
      | H : context [Qle_bool ?x ?y] |- _ =>
          let E := fresh "E" in
          destruct (Qle_bool x y) eqn:E;
          [apply Qle_bool_iff in E|apply Qle_bool_false in E]
      | |- context [Qle_bool ?x ?y] =>
          let E := fresh "E" in
          destruct (Qle_bool x y) eqn:E;
          [apply Qle_bool_iff in E|apply Qle_bool_false in E]
      end;
    cbn; try discriminate; try reflexivity; try lia; try lra;
    try (destruct H; lra).
Qed.

Lemma estimateScopeFromValue_monotone_witness :
  (SCOPE_SCORES (estimateScopeFromValue (Fin 9999))
   <= SCOPE_SCORES (estimateScopeFromValue (Fin 50000)))%Z.
Proof.
  apply (proj1 (estimateScopeFromValue_monotone 9999 50000)).
  unfold Qle; simpl; lia.
Defined.

(** X22: in the priority ranking a stale EPIC lead is never ranked below a
    lead that is not stale, whatever the two leads are: its score is at least
    50, and no score is above 100. *)
Theorem stale_epic_ranks_first (stale fresh : LeadScoreInput) :
  serviceTier stale = EPIC ->
  (calculatePriorityRank (calculateLeadScore fresh) (serviceTier fresh) false
   <=? calculatePriorityRank (calculateLeadScore stale) (serviceTier stale) true)%num
  = true.
Proof.
  intros Hepic. rewrite !score_formula.
  pose proof (scoreZ_tier_floor stale) as [Hlo _]. rewrite Hepic in *.
  pose proof (scoreZ_range fresh) as [_ Hhi].
  rewrite Zle_Qle in Hlo, Hhi. cbn [tier_floor] in Hlo.
  change (inject_Z 50) with 50 in Hlo. change (inject_Z 100) with 100 in Hhi.
  unfold calculatePriorityRank.
  destruct (serviceTier fresh); cbn [tier_number];
    cbn [of_Z sub add neg mul leb]; apply Qle_bool_iff;
    change (inject_Z 5) with 5; change (inject_Z 1) with 1;
    change (inject_Z 2) with 2; change (inject_Z 3) with 3;
    change (inject_Z 4) with 4; change (inject_Z 10) with 10;
    change (inject_Z 50) with 50; lra.
Qed.

Lemma stale_epic_ranks_first_witness :
  (calculatePriorityRank
     (calculateLeadScore
        (mkLeadScoreInput EPIC (Some enterprise) (Some (of_Z 600000))
           (Some "Fairfax") (Some true) (Some true) (Some [Whale; Luxury]) None))
     EPIC false
   <=? calculatePriorityRank
         (calculateLeadScore
            (mkLeadScoreInput EPIC (Some small) (Some (of_Z 100)) None
               None None None None))
         EPIC true)%num
  = true.
Proof.
  apply (stale_epic_ranks_first
    (mkLeadScoreInput EPIC (Some small) (Some (of_Z 100)) None None None None None)
    (mkLeadScoreInput EPIC (Some enterprise) (Some (of_Z 600000))
       (Some "Fairfax") (Some true) (Some true) (Some [Whale; Luxury]) None)).
  reflexivity.
Defined.

End ScoringProps.

(** ** More on the duplicate detector *)
Module DuplicateCheckProps.
Import JS DuplicateCheck DuplicateCheckFacts.

Lemma maybeSingle_Some {A : Type} (rows : list A) (r : A) :
  maybeSingle rows = Some r -> rows = [r].
Proof. destruct rows as [|x [|y rows]]; cbn; congruence. Qed.

(** The three queries of [findDuplicateLead], as selections of rows. *)
Definition emailRows (supabase : Store) (lead : DuplicateCheckInput) : list LeadRow :=
  List.filter
    (fun row => ilike (row_email row) (default "" (normalizeEmail (email lead))))
    supabase.

Definition nameLocationRows (supabase : Store) (lead : DuplicateCheckInput)
  : list LeadRow :=
  List.filter
    (fun row =>
       ilike (Some (row_name row)) ("%" ++ normalizeName (name lead) ++ "%")
       && ilike (Some (row_location row))
            ("%" ++ trim (toLowerCase (location lead)) ++ "%"))
    supabase.

(** What justifies a result of [findDuplicateLead]. *)
Inductive single_result (supabase : Store) (lead : DuplicateCheckInput)
  : DuplicateCheckResult -> Prop :=
| sr_none : single_result supabase lead notDuplicate
| sr_email row :
    truthy_opt (normalizeEmail (email lead)) = true ->
    emailRows supabase lead = [row] ->
    single_result supabase lead (mkResult true (Some (row_id row)) (Some mt_email))
| sr_phone row digits :
    row ∈ supabase ->
    normalizePhone (phone lead) = Some digits ->
    10 <= String.length digits ->
    normalizePhone (row_phone row) = Some digits ->
    single_result supabase lead (mkResult true (Some (row_id row)) (Some mt_phone))
| sr_name_location row :
    nameLocationRows supabase lead = [row] ->
    single_result supabase lead
      (mkResult true (Some (row_id row)) (Some mt_name_location)).

Lemma opt_string_eqb_eq (a b : option string) :
  opt_string_eqb a b = true -> a = b.
Proof.
  destruct a, b; cbn; try done. by intros ->%String.eqb_eq.
Qed.

(** X23: every result of [findDuplicateLead] is justified: it is the
    no-duplicate result, or an e-mail match on the one and only row the e-mail
    query selects, or a telephone match on a row whose digits equal the
    candidate's, which are at least ten, or a name-and-location match on the
    one and only row that query selects.  An address match is never
    reported. *)
Theorem findDuplicateLead_justified (supabase : Store) (lead : DuplicateCheckInput) :
  single_result supabase lead (findDuplicateLead supabase lead)
  ∧ matchType (findDuplicateLead supabase lead) ≠ Some mt_address.
Proof.
  assert (single_result supabase lead (findDuplicateLead supabase lead)) as H.
  { unfold findDuplicateLead.
    destruct (truthy_opt (normalizeEmail (email lead))) eqn:Hemail.
    - destruct (maybeSingle _) as [row|] eqn:E1.
      { apply maybeSingle_Some in E1. by apply sr_email. }
      clear E1.
      destruct (truthy_opt (normalizePhone (phone lead)) && _) eqn:Hphone.
      + destruct (List.find _ _) as [row|] eqn:E2.
        { apply find_some in E2 as [Hin%filter_In Heq%opt_string_eqb_eq].
          destruct Hin as [Hin _].
          apply andb_true_iff in Hphone as [Ht Hlen%Nat.leb_le].
          destruct (normalizePhone (phone lead)) as [digits|] eqn:Ed; [|done].
          eapply sr_phone; [by apply list_elem_of_In|done|exact Hlen|done]. }
        destruct (maybeSingle _) as [row|] eqn:E3; [|constructor].
        apply maybeSingle_Some in E3. by apply sr_name_location.
      + destruct (maybeSingle _) as [row|] eqn:E3; [|constructor].
        apply maybeSingle_Some in E3. by apply sr_name_location.
    - destruct (truthy_opt (normalizePhone (phone lead)) && _) eqn:Hphone.
      + destruct (List.find _ _) as [row|] eqn:E2.
        { apply find_some in E2 as [Hin%filter_In Heq%opt_string_eqb_eq].
          destruct Hin as [Hin _].
          apply andb_true_iff in Hphone as [Ht Hlen%Nat.leb_le].
          destruct (normalizePhone (phone lead)) as [digits|] eqn:Ed; [|done].
          eapply sr_phone; [by apply list_elem_of_In|done|exact Hlen|done]. }
        destruct (maybeSingle _) as [row|] eqn:E3; [|constructor].
        apply maybeSingle_Some in E3. by apply sr_name_location.
      + destruct (maybeSingle _) as [row|] eqn:E3; [|constructor].
        apply maybeSingle_Some in E3. by apply sr_name_location. }
  split; [exact H|]. by destruct H.
Qed.

(** X24: the e-mail strategy and the name-and-location strategy report
    nothing when their query selects two rows or more: with a candidate that
    has no telephone number, two stored rows that both match by e-mail and
    by name and location, the lead is not a duplicate for
    [findDuplicateLead]. *)
Theorem ambiguous_match_not_reported (supabase : Store) (lead : DuplicateCheckInput) :
  2 <= length (emailRows supabase lead) ->
  2 <= length (nameLocationRows supabase lead) ->
  phone lead = None ->
  findDuplicateLead supabase lead = notDuplicate.
Proof.
  intros He Hn Hp. unfold findDuplicateLead. rewrite Hp. cbn [normalizePhone truthy_opt andb].
  fold (emailRows supabase lead). fold (nameLocationRows supabase lead).
  assert (maybeSingle (emailRows supabase lead) = None) as ->
    by (destruct (emailRows supabase lead) as [|? [|? ?]]; cbn in *; [lia..|done]).
  assert (maybeSingle (nameLocationRows supabase lead) = None) as ->
    by (destruct (nameLocationRows supabase lead) as [|? [|? ?]]; cbn in *; [lia..|done]).
  by destruct (truthy_opt _).
Qed.

Lemma ambiguous_match_not_reported_witness :
  findDuplicateLead
    [mkRow "lead-1" "John Smith" (Some "john@x.com") None "Vienna";
     mkRow "lead-2" "John Smith" (Some "John@X.com") None "Vienna"]
    (mkInput "John Smith" (Some "john@x.com") None "Vienna" None)
  = notDuplicate.
Proof.
  apply ambiguous_match_not_reported; [vm_compute; lia|vm_compute; lia|reflexivity].
Defined.

(** What justifies a result of the loop body of [batchCheckDuplicates]. *)
Inductive batch_result (existingLeads : list LeadRow) (lead : DuplicateCheckInput)
  : DuplicateCheckResult -> Prop :=
| br_none : batch_result existingLeads lead notDuplicate
| br_email row e :
    row ∈ existingLeads ->
    normalizeEmail (email lead) = Some e -> e ≠ "" ->
    normalizeEmail (row_email row) = Some e ->
    batch_result existingLeads lead
      (mkResult true (Some (row_id row)) (Some mt_email))
| br_phone row digits :
    row ∈ existingLeads ->
    normalizePhone (phone lead) = Some digits -> digits ≠ "" ->
    normalizePhone (row_phone row) = Some digits ->
    batch_result existingLeads lead
      (mkResult true (Some (row_id row)) (Some mt_phone))
| br_name_location row :
    row ∈ existingLeads ->
    includes (normalizeName (row_name row)) (normalizeName (name lead)) = true ->
    includes (toLowerCase (row_location row)) (trim (toLowerCase (location lead)))
    = true ->
    batch_result existingLeads lead
      (mkResult true (Some (row_id row)) (Some mt_name_location)).

Lemma truthy_opt_Some (o : option string) :
  truthy_opt o = true -> ∃ s, o = Some s ∧ s ≠ "".
Proof.
  destruct o as [s|]; [|done]. unfold truthy_opt, truthy.
  intros H%negb_true_iff. exists s. split; [done|].
  intros ->. done.
Qed.

Lemma checkAgainstExisting_justified (existingLeads : list LeadRow)
    (lead : DuplicateCheckInput) :
  batch_result existingLeads lead (checkAgainstExisting existingLeads lead).
Proof.
  unfold checkAgainstExisting.
  destruct (List.find _ existingLeads) as [m|] eqn:E; [|constructor].
  apply find_some in E as [Hin%list_elem_of_In Hhit].
  destruct (truthy_opt (normalizeEmail (email lead))
            && opt_string_eqb (normalizeEmail (row_email m))
                 (normalizeEmail (email lead))) eqn:He.
  { apply andb_true_iff in He as [(e & He & Hne)%truthy_opt_Some Heq%opt_string_eqb_eq].
    eapply br_email; [done|exact He|done|congruence]. }
  destruct (truthy_opt (normalizePhone (phone lead))
            && opt_string_eqb (normalizePhone (row_phone m))
                 (normalizePhone (phone lead))) eqn:Hp.
  { apply andb_true_iff in Hp as [(d & Hd & Hne)%truthy_opt_Some Heq%opt_string_eqb_eq].
    eapply br_phone; [done|exact Hd|done|congruence]. }
  destruct (includes _ _ && includes _ _) eqn:Hn; [|done].
  apply andb_true_iff in Hn as [Hn Hl]. by apply br_name_location.
Qed.

(** X25: the batch has one entry per candidate, at the candidate's index,
    and nothing else; every entry is justified by a row of the fetched
    snapshot: equal normalised e-mail addresses for an e-mail match, equal
    normalised telephone digits for a telephone match, containment of the
    normalised name and of the location for a name-and-location match.  No
    entry is an address match. *)
Theorem batchCheckDuplicates_entries (supabase : Store)
    (leads : list DuplicateCheckInput) (i : nat) :
  (is_Some (batchCheckDuplicates supabase leads !! i) <-> i < length leads)
  ∧ (∀ lead, leads !! i = Some lead ->
       ∃ r, batchCheckDuplicates supabase leads !! i = Some r
            ∧ batch_result supabase lead r
            ∧ matchType r ≠ Some mt_address).
Proof.
  rewrite batchCheckDuplicates_lookup. split.
  - rewrite <- lookup_lt_is_Some, fmap_is_Some. done.
  - intros lead ->. eexists. split; [reflexivity|].
    pose proof (checkAgainstExisting_justified supabase lead) as H.
    split; [exact H|]. by destruct H.
Qed.

Lemma batchCheckDuplicates_entries_witness :
  ∃ r, batchCheckDuplicates
         [mkRow "lead-1" "Bob Jones" None (Some "(703) 555-0101") "Vienna"]
         [mkInput "Robert Jones" None (Some "703.555.0101") "Reston" None] !! 0
       = Some r
       ∧ matchType r ≠ Some mt_address.
Proof.
  destruct (proj2 (batchCheckDuplicates_entries
              [mkRow "lead-1" "Bob Jones" None (Some "(703) 555-0101") "Vienna"]
              [mkInput "Robert Jones" None (Some "703.555.0101") "Reston" None] 0)
              _ eq_refl) as (r & Hr & _ & Hm).
  exists r. split; [exact Hr|exact Hm].
Defined.

(** X26: against an empty store nothing is a duplicate, for the single
    check, for its boolean form and for every candidate of a batch. *)
Theorem empty_store_no_duplicate (lead : DuplicateCheckInput)
    (leads : list DuplicateCheckInput) (i : nat) :
  findDuplicateLead [] lead = notDuplicate
  ∧ checkDuplicateLead [] lead = false
  ∧ (i < length leads -> batchCheckDuplicates [] leads !! i = Some notDuplicate).
Proof.
  assert (findDuplicateLead [] lead = notDuplicate) as H.
  { unfold findDuplicateLead. cbn [List.filter maybeSingle List.find].
    by destruct (truthy_opt _), (truthy_opt _ && _). }
  split; [exact H|]. split; [unfold checkDuplicateLead; by rewrite H|].
  intros Hi. rewrite batchCheckDuplicates_lookup.
  apply lookup_lt_is_Some in Hi as [l ->]. reflexivity.
Qed.

Lemma empty_store_no_duplicate_witness :
  batchCheckDuplicates [] [mkInput "Ann Lee" None None "Reston" None] !! 0
  = Some notDuplicate.
Proof.
  apply (empty_store_no_duplicate (mkInput "Ann Lee" None None "Reston" None)
           [mkInput "Ann Lee" None None "Reston" None] 0).
  cbn. lia.
Defined.

End DuplicateCheckProps.

(** ** The lead finder route *)
Module LeadFinderProps.
Import JS LeadFinder.

Definition validTypes : list string :=
  ["Investor"; "Property Manager"; "HOA Manager"; "Homeowner"; "Commercial"].

(** X27: [validateLeadType] always answers with one of the five lead types:
    the type whose name the trimmed argument spells in some letter case, and
    "Homeowner" for a missing argument or any other text. *)
Theorem validateLeadType_total (type : option string) (t : string) :
  validateLeadType type ∈ validTypes
  ∧ (t ∈ validTypes ->
     toLowerCase (trim (default "" type)) = toLowerCase t ->
     validateLeadType type = t)
  ∧ ((∀ t', t' ∈ validTypes ->
        toLowerCase (trim (default "" type)) ≠ toLowerCase t') ->
     validateLeadType type = "Homeowner").
Proof.
  unfold validateLeadType. fold validTypes.
  set (normalized := toLowerCase (trim (default "" type))).
  split; [|split].
  - destruct (List.find _ validTypes) as [m|] eqn:E; cbn.
    + apply find_some in E as [Hin _]. by apply list_elem_of_In.
    + unfold validTypes. rewrite !elem_of_cons. tauto.
  - intros Hin Hnorm. rewrite Hnorm. unfold validTypes in Hin.
    repeat (apply elem_of_cons in Hin as [->|Hin]; [reflexivity|]).
    by apply elem_of_nil in Hin.
  - intros Hnone.
    destruct (List.find _ validTypes) as [m|] eqn:E; [|done].
    apply find_some in E as [Hin%list_elem_of_In Heq%String.eqb_eq].
    by destruct (Hnone m Hin).
Qed.

Lemma validateLeadType_total_witness :
  validateLeadType (Some "  property MANAGER ") = "Property Manager".
Proof.
  apply (proj1 (proj2 (validateLeadType_total (Some "  property MANAGER ")
                         "Property Manager"))).
  - unfold validTypes. rewrite !elem_of_cons. tauto.
  - reflexivity.
Defined.

#[local] Instance LocationValidation_eq_dec : EqDecision LocationValidation.
Proof. solve_decision. Defined.

Definition city_fixed (c : string) : bool :=
  bool_decide (validateVirginiaLocation c lt_city = mkLocationValidation true (Some c)).

Definition county_fixed (c : string) : bool :=
  bool_decide (validateVirginiaLocation (formatCountyDisplay c) lt_county
               = mkLocationValidation true (Some (formatCountyDisplay c)))
  && bool_decide (validateVirginiaLocation c lt_county
                  = mkLocationValidation true (Some (formatCountyDisplay c))).

Lemma cities_fixed : forallb city_fixed VA_CITIES = true.
Proof. vm_compute. reflexivity. Qed.

Lemma counties_fixed : forallb county_fixed Geofence.VA_COUNTY_NAMES = true.
Proof. vm_compute. reflexivity. Qed.

(** X28: what [validateVirginiaLocation] accepts it normalises to a name of
    its tables: a city of [VA_CITIES], or a county of [VA_COUNTY_NAMES]
    followed by " County"; a rejected location has no normalised form.  Every
    city of the table is accepted as itself, and every county is accepted,
    with or without the suffix, as its display name. *)
Theorem validateVirginiaLocation_normalises (location : string)
    (locationType : LocationType) :
  let r := validateVirginiaLocation location locationType in
  (valid r = true ->
     match locationType with
     | lt_city => ∃ c, c ∈ VA_CITIES ∧ normalizedLocation r = Some c
     | lt_county =>
         ∃ c, c ∈ Geofence.VA_COUNTY_NAMES
              ∧ normalizedLocation r = Some (c ++ " County")
     end)
  ∧ (valid r = false -> normalizedLocation r = None)
  ∧ (location ∈ VA_CITIES ->
     validateVirginiaLocation location lt_city
     = mkLocationValidation true (Some location))
  ∧ (location ∈ Geofence.VA_COUNTY_NAMES ->
     validateVirginiaLocation location lt_county
     = mkLocationValidation true (Some (location ++ " County"))
     ∧ validateVirginiaLocation (location ++ " County") lt_county
       = mkLocationValidation true (Some (location ++ " County"))).
Proof.
  cbn zeta. split; [|split; [|split]].
  - unfold validateVirginiaLocation.
    destruct locationType;
      repeat match goal with
        | |- context [List.find ?f ?l] =>
            let E := fresh "E" in
            destruct (List.find f l) as [?m|] eqn:E;
            [apply find_some in E as [?Hin%list_elem_of_In _]|clear E]
        end;
      cbn; first [discriminate | intros _; eauto].
  - unfold validateVirginiaLocation.
    destruct locationType;
      repeat match goal with
        | |- context [List.find ?f ?l] => destruct (List.find f l)
        end;
      cbn; first [discriminate | done].
  - intros Hin%list_elem_of_In.
    pose proof cities_fixed as Hall. rewrite forallb_forall in Hall.
    specialize (Hall _ Hin). by apply bool_decide_eq_true in Hall.
  - intros Hin%list_elem_of_In.
    pose proof counties_fixed as Hall. rewrite forallb_forall in Hall.
    specialize (Hall _ Hin). unfold county_fixed in Hall.
    apply andb_true_iff in Hall as [H1%bool_decide_eq_true H2%bool_decide_eq_true].
    done.
Qed.

Lemma validateVirginiaLocation_normalises_witness :
  validateVirginiaLocation "Prince William County" lt_county
  = mkLocationValidation true (Some "Prince William County").
Proof.
  apply (proj2 (proj2 (proj2 (validateVirginiaLocation_normalises
                                "Prince William" lt_county)))).
  apply list_elem_of_In. vm_compute. tauto.
Defined.

(** X29: a location made of white space only is not turned away: after
    trimming it is the empty string, which every name contains, so the
    partial match takes the first entry of the table, "Fairfax" for a city
    and "Accomack County" for a county. *)
Theorem validateVirginiaLocation_blank (location : string) :
  sforall is_space location = true ->
  validateVirginiaLocation location lt_city
  = mkLocationValidation true (Some "Fairfax")
  ∧ validateVirginiaLocation location lt_county
    = mkLocationValidation true (Some "Accomack County").
Proof.
  intros H. unfold validateVirginiaLocation, normalizeCountyInput.
  rewrite (CategorizationProps.trim_spaces _ H). split; reflexivity.
Qed.

Lemma validateVirginiaLocation_blank_witness :
  validateVirginiaLocation "  " lt_city = mkLocationValidation true (Some "Fairfax").
Proof. apply validateVirginiaLocation_blank. reflexivity. Defined.

Lemma lookup_tier_services (s : ServiceType) :
  s ∈ CategorizationProps.services -> is_Some (Categorization.lookup_tier s).
Proof.
  unfold CategorizationProps.services.
  intros ([s' t] & -> & Hin)%list_elem_of_fmap.
  exists t. by apply CategorizationProps.lookup_tier_Some.
Qed.

(** X30: a lead processed by the route carries one of the 17 service names
    and the tier the table gives that name, and the state "VA"; its score is
    computed from tier, county and contact flags alone, so it lies between 38
    and 70 and never earns the label "Hot Lead". *)
Theorem processLead_invariants (supabase : option DuplicateCheck.Store)
    (category : string) (lead : FoundLead) :
  let p := processLead supabase category lead in
  serviceType p ∈ CategorizationProps.services
  ∧ Categorization.lookup_tier (serviceType p) = Some (serviceTier p)
  ∧ Categorization.getServiceTier (serviceType p) = serviceTier p
  ∧ state p = "VA"
  ∧ county p = Geofence.getCountyFromZip (zipCode lead)
  ∧ (∃ n : Z, leadScore p = Num.of_Z n ∧ (38 <= n <= 70)%Z)
  ∧ Scoring.getScoreLabel (leadScore p) ≠ "Hot Lead".
Proof.
  cbn zeta. unfold processLead. cbn [serviceType serviceTier state county leadScore].
  set (matched := default "Full Renovation" (Categorization.findClosestService category)).
  assert (matched ∈ CategorizationProps.services) as Hin.
  { subst matched.
    destruct (Categorization.findClosestService category) as [s|] eqn:E; cbn.
    - by apply CategorizationProps.findClosestService_services in E.
    - apply list_elem_of_In. vm_compute. tauto. }
  destruct (lookup_tier_services _ Hin) as [t Ht].
  unfold Categorization.getServiceTier. rewrite Ht. cbn [default from_option id].
  repeat (split; [done|]).
  set (input := Scoring.mkLeadScoreInput _ _ _ _ _ _ _ _).
  assert (38 <= ScoringProps.scoreZ input <= 70)%Z as Hn.
  { unfold ScoringProps.scoreZ. cbn [ScoringProps.confQ input Scoring.confidenceScore].
    pose proof (ScoringProps.component_bounds input) as (_ & _ & Hl & He & _).
    assert (ScoringProps.preQ input
            == inject_Z (Categorization.baseScore (Categorization.TIER_CONFIG t))
               * (2 # 5) + (45 # 2)
               + ScoringProps.numQ (Scoring.locationScore input) * (1 # 10)
               + ScoringProps.numQ (Scoring.engagementScore input) * (1 # 20))%Q
      as Hpre.
    { unfold ScoringProps.preQ. rewrite ScoringProps.tierScore_numQ.
      generalize (ScoringProps.numQ (Scoring.locationScore input)),
        (ScoringProps.numQ (Scoring.engagementScore input)).
      intros. cbn. unfold inject_Z. lra. }
    assert (38 <= Qfloor (ScoringProps.preQ input + 0 + (1 # 2)))%Z.
    { rewrite <- (Qfloor_Z 38). apply Qfloor_resp_le. rewrite Hpre.
      destruct t; cbn; unfold inject_Z; lra. }
    assert (Qfloor (ScoringProps.preQ input + 0 + (1 # 2)) <= 70)%Z.
    { apply ScoringProps.Qfloor_half_upper. rewrite Hpre.
      destruct t; cbn; unfold inject_Z; lra. }
    lia. }
  rewrite ScoringProps.score_formula. split; [eauto|].
  rewrite ScoringProps.getScoreLabel_of_Z.
  repeat case_match; try done; lia.
Qed.

End LeadFinderProps.
